(** * Sum-eliminate puzzle: the game-state machine of [App.tsx]

    A shallow embedding of the state held by the [App] component (the
    [useState] cells), of its event handlers and of its effects, followed by
    the properties of the game engine.

    Conventions of the embedding.
    - JavaScript numbers that only ever hold small integers (tile values,
      rows, columns, score, target, seconds) are [Z].
    - [Math.random()] is an oracle: [random k] is the result of the [k]-th
      call, a rational of the half-open unit interval (assumption
      [random_unit] where a proof needs it).  The engine state carries the
      number of calls made so far.
    - [Number.prototype.toString(36)] is a parameter [toString36].
    - A state setter called with an updater function is applied to the
      pending state in program order, which is how React drains its update
      queue; values read from the render closure are read from the state the
      handler or effect started with.  An updater runs once.
    - The cells that only serve the presentation ([isMusicOn], the audio and
      timer refs) are left out. *)

From Stdlib Require Import ZArith QArith Qround List String Ascii Bool Lia FinFun.
From Stdlib Require Import Permutation.
Import ListNotations.
Open Scope Z_scope.

(** ** types.ts *)

Inductive GameMode : Set := classic | time.

Record BlockData : Set := mkBlock {
  id : string;
  value : Z;
  row : Z;
  col : Z
}.

Definition GRID_COLS : Z := 7.
Definition GRID_ROWS : Z := 10.
Definition INITIAL_ROWS : Z := 4.
Definition MAX_VALUE : Z := 9.
Definition TIME_LIMIT : Z := 10.

(** A JavaScript number as far as the high score needs it: an integer, or
    the not-a-number value that [parseInt] returns on failure. *)
Inductive JsNumber : Set := NaN | Num (z : Z).

(** ** The state cells of the component *)

Record AppState : Type := mkState {
  mode : option GameMode;
  grid : list BlockData;
  target : Z;
  score : Z;
  selectedIds : list string;
  gameOver : bool;
  timeLeft : Z;
  isPaused : bool;
  highScore : JsNumber;
  randomCalls : nat
}.

Definition setMode (m : option GameMode) (s : AppState) : AppState :=
  mkState m (grid s) (target s) (score s) (selectedIds s) (gameOver s)
          (timeLeft s) (isPaused s) (highScore s) (randomCalls s).
Definition setGrid (g : list BlockData) (s : AppState) : AppState :=
  mkState (mode s) g (target s) (score s) (selectedIds s) (gameOver s)
          (timeLeft s) (isPaused s) (highScore s) (randomCalls s).
Definition setTarget (t : Z) (s : AppState) : AppState :=
  mkState (mode s) (grid s) t (score s) (selectedIds s) (gameOver s)
          (timeLeft s) (isPaused s) (highScore s) (randomCalls s).
Definition setScore (n : Z) (s : AppState) : AppState :=
  mkState (mode s) (grid s) (target s) n (selectedIds s) (gameOver s)
          (timeLeft s) (isPaused s) (highScore s) (randomCalls s).
Definition setSelectedIds (l : list string) (s : AppState) : AppState :=
  mkState (mode s) (grid s) (target s) (score s) l (gameOver s)
          (timeLeft s) (isPaused s) (highScore s) (randomCalls s).
Definition setGameOver (b : bool) (s : AppState) : AppState :=
  mkState (mode s) (grid s) (target s) (score s) (selectedIds s) b
          (timeLeft s) (isPaused s) (highScore s) (randomCalls s).
Definition setTimeLeft (t : Z) (s : AppState) : AppState :=
  mkState (mode s) (grid s) (target s) (score s) (selectedIds s) (gameOver s)
          t (isPaused s) (highScore s) (randomCalls s).
Definition setIsPaused (b : bool) (s : AppState) : AppState :=
  mkState (mode s) (grid s) (target s) (score s) (selectedIds s) (gameOver s)
          (timeLeft s) b (highScore s) (randomCalls s).
Definition setHighScore (h : JsNumber) (s : AppState) : AppState :=
  mkState (mode s) (grid s) (target s) (score s) (selectedIds s) (gameOver s)
          (timeLeft s) (isPaused s) h (randomCalls s).
Definition setRandomCalls (k : nat) (s : AppState) : AppState :=
  mkState (mode s) (grid s) (target s) (score s) (selectedIds s) (gameOver s)
          (timeLeft s) (isPaused s) (highScore s) k.

(** The [useState] initial values; no call of [Math.random] has been made. *)
Definition initialState : AppState :=
  mkState None [] 0 0 [] false TIME_LIMIT false (Num 0) 0%nat.

(** ** Computations that draw random numbers *)

Definition Rand (A : Type) : Type := nat -> A * nat.

Definition ret {A} (a : A) : Rand A := fun k => (a, k).
Definition bind {A B} (c : Rand A) (f : A -> Rand B) : Rand B :=
  fun k => let (a, k') := c k in f a k'.

Notation "x <- c ;; f" := (bind c (fun x => f))
  (at level 61, c at next level, right associativity).

(** [Array.from({ length: n }, (_, i) => f i)]: the callback runs for the
    indices [start], [start + 1], ... in increasing order. *)
Fixpoint arrayFromAt {A} (n : nat) (start : Z) (f : Z -> Rand A) : Rand (list A) :=
  match n with
  | O => ret []
  | S n' => x <- f start ;; xs <- arrayFromAt n' (start + 1) f ;; ret (x :: xs)
  end.

Definition arrayFrom {A} (length : Z) (f : Z -> Rand A) : Rand (list A) :=
  arrayFromAt (Z.to_nat length) 0 f.

(** [b.row - 1] under the object spread [{ ...b, row: b.row - 1 }]. *)
Definition shiftUp (b : BlockData) : BlockData :=
  mkBlock (id b) (value b) (row b - 1) (col b).

(** [ids.includes(i)] on an array of strings. *)
Definition includes (ids : list string) (i : string) : bool :=
  existsb (String.eqb i) ids.

(** ** The persisted high score *)

(** [parseInt(s)] with no radix, after the ECMAScript definition: leading
    white space is skipped, then an optional sign, then an optional [0x]
    prefix that selects radix 16; the longest prefix of digits is the
    result, and there is no result (NaN) when that prefix is empty.
    Domain of the model: the white space it skips is the ASCII white space
    (the code also skips the other Unicode spaces), and the integer it
    returns is exact, which is what the code returns for results of
    magnitude below 2^53 (beyond that a double rounds). *)
Definition isWhiteSpace (c : ascii) : bool :=
  let n := nat_of_ascii c in
  ((9 <=? n) && (n <=? 13) || (n =? 32))%nat.

Fixpoint trimStart (s : string) : string :=
  match s with
  | String c r => if isWhiteSpace c then trimStart r else s
  | EmptyString => EmptyString
  end.

Definition digitValue (c : ascii) : option Z :=
  let n := Z.of_nat (nat_of_ascii c) in
  if (48 <=? n) && (n <=? 57) then Some (n - 48)
  else if (97 <=? n) && (n <=? 122) then Some (n - 87)
  else if (65 <=? n) && (n <=? 90) then Some (n - 55)
  else None.

Fixpoint digitPrefix (R : Z) (s : string) : list Z :=
  match s with
  | String c r =>
      match digitValue c with
      | Some d => if d <? R then d :: digitPrefix R r else []
      | None => []
      end
  | EmptyString => []
  end.

Definition mathInt (R : Z) (digits : list Z) : Z :=
  fold_left (fun acc d => acc * R + d) digits 0.

Definition parseInt (input : string) : JsNumber :=
  let S1 := trimStart input in
  let (sign, S2) :=
    match S1 with
    | String "-" r => (-1, r)
    | String "+" r => (1, r)
    | _ => (1, S1)
    end in
  let (R, S3) :=
    match S2 with
    | String "0" (String "x" r) => (16, r)
    | String "0" (String "X" r) => (16, r)
    | _ => (10, S2)
    end in
  match digitPrefix R S3 with
  | [] => NaN
  | digits => Num (sign * mathInt R digits)
  end.

(** [if (saved)] on the result of [localStorage.getItem]: [null] and the
    empty string are falsy. *)
Definition truthy (saved : option string) : bool :=
  match saved with
  | Some (String _ _) => true
  | _ => false
  end.

(** The effect that reads the high score when the component mounts. *)
Definition loadHighScore (saved : option string) (s : AppState) : AppState :=
  match saved with
  | Some str => if truthy saved then setHighScore (parseInt str) s else s
  | None => s
  end.

(** [score > highScore]; a comparison with NaN is false. *)
Definition exceeds (n : Z) (h : JsNumber) : bool :=
  match h with
  | Num z => n >? z
  | NaN => false
  end.

(** The effect that records a new high score (the state part of it; the
    same branch also writes the score to the browser storage). *)
Definition updateHighScore (s : AppState) : AppState :=
  if exceeds (score s) (highScore s) then setHighScore (Num (score s)) s
  else s.

Section Engine.

(** The results of the successive calls of [Math.random()], and the base-36
    rendering of a number. *)
Variable random : nat -> Q.
Variable toString36 : Q -> string.

Definition mathRandom : Rand Q := fun k => (random k, S k).

(** [Math.floor(Math.random() * n)] *)
Definition randomBelow (n : Z) : Rand Z :=
  r <- mathRandom ;; ret (Qfloor (r * inject_Z n)).

(** [Math.random().toString(36).substring(2, 9)] *)
Definition generateId : Rand string :=
  r <- mathRandom ;; ret (substring 2 7 (toString36 r)).

Definition createRow (rowIndex : Z) : Rand (list BlockData) :=
  arrayFrom GRID_COLS (fun colIndex =>
    i <- generateId ;;
    v <- randomBelow MAX_VALUE ;;
    ret (mkBlock i (v + 1) rowIndex colIndex)).

(** Runs a random computation against the call counter held in the state. *)
Definition draw {A} (c : Rand A) (s : AppState) : A * AppState :=
  let (a, k) := c (randomCalls s) in (a, setRandomCalls k s).

(** [values[i]]: an index outside of the array reads [undefined]; a draw in
    the unit interval never produces one, and the model keeps the
    placeholder 0 for it. *)
Definition arrayGet (values : list Z) (i : Z) : Z :=
  if i <? 0 then 0 else nth (Z.to_nat i) values 0.

Definition targetValues : list Z := [10; 12; 15; 18; 20; 25].

Definition generateTarget (s : AppState) : AppState :=
  let (i, s') := draw (randomBelow (Z.of_nat (List.length targetValues))) s in
  setTarget (arrayGet targetValues i) s'.

(** The [for] loop of [startGame]: iterations [i], [i + 1], ... push the rows
    [GRID_ROWS - 1 - i] onto [initialGrid]. *)
Fixpoint initialGridFrom (n : nat) (i : Z) : Rand (list BlockData) :=
  match n with
  | O => ret []
  | S n' =>
      r <- createRow (GRID_ROWS - 1 - i) ;;
      rest <- initialGridFrom n' (i + 1) ;;
      ret (r ++ rest)
  end.

Definition startGame (selectedMode : GameMode) (s : AppState) : AppState :=
  let s := setMode (Some selectedMode) s in
  let (initialGrid, s) := draw (initialGridFrom (Z.to_nat INITIAL_ROWS) 0) s in
  let s := setGrid initialGrid s in
  let s := setScore 0 s in
  let s := setGameOver false s in
  let s := setSelectedIds [] s in
  let s := setTimeLeft TIME_LIMIT s in
  let s := setIsPaused false s in
  generateTarget s.

(** [prev.some((b) => b.row === 0)] *)
Definition isFull (prev : list BlockData) : bool :=
  existsb (fun b => row b =? 0) prev.

(** [addRow]: the updater handed to [setGrid] (it calls [setGameOver] when
    the top row is occupied), then the reset of the timer in time mode. *)
Definition addRow (s : AppState) : AppState :=
  let s1 :=
    if isFull (grid s) then setGameOver true s
    else
      let shifted := map shiftUp (grid s) in
      let (newRow, s') := draw (createRow (GRID_ROWS - 1)) s in
      setGrid (shifted ++ newRow) s' in
  match mode s with
  | Some time => setTimeLeft TIME_LIMIT s1
  | _ => s1
  end.

(** The condition under which the timer effect installs its interval. *)
Definition timerRunning (s : AppState) : bool :=
  match mode s with
  | Some time => negb (gameOver s) && negb (isPaused s)
  | _ => false
  end.

(** The interval callback, one tick of the countdown: the updater handed to
    [setTimeLeft]. *)
Definition advanceTime (s : AppState) : AppState :=
  if timeLeft s <=? 1 then setTimeLeft TIME_LIMIT (addRow s)
  else setTimeLeft (timeLeft s - 1) s.

Definition handleBlockClick (i : string) (s : AppState) : AppState :=
  if gameOver s || isPaused s then s
  else
    let prev := selectedIds s in
    setSelectedIds
      (if includes prev i then filter (fun j => negb (String.eqb j i)) prev
       else prev ++ [i]) s.

(** The tiles of the grid whose id is in the selection. *)
Definition selectedBlocks (s : AppState) : list BlockData :=
  filter (fun b => includes (selectedIds s) (id b)) (grid s).

(** The tiles of the grid whose id is not in the selection. *)
Definition remainingBlocks (s : AppState) : list BlockData :=
  filter (fun b => negb (includes (selectedIds s) (id b))) (grid s).

Definition currentSum (s : AppState) : Z :=
  fold_left (fun sum b => sum + value b) (selectedBlocks s) 0.

(** The update queued by a clear before the action of the mode: score, grid,
    selection, target. *)
Definition clearSelected (s : AppState) : AppState :=
  let sel := selectedIds s in
  let s := setScore (score s + Z.of_nat (List.length sel) * 10) s in
  let s := setGrid (filter (fun b => negb (includes sel (id b))) (grid s)) s in
  let s := setSelectedIds [] s in
  generateTarget s.

(** The effect that checks the sum whenever the selection changes. *)
Definition checkSum (s : AppState) : AppState :=
  if currentSum s =? target s then
    let s' := clearSelected s in
    match mode s with
    | Some classic => addRow s'
    | Some time => setTimeLeft TIME_LIMIT s'
    | None => s'
    end
  else if currentSum s >? target s then setSelectedIds [] s
  else s.

(** *** The component as a transition system *)

(** What can happen to the mounted component: the user intents, the tick of
    the interval, and the runs of the effects. *)
Inductive Event : Type :=
| StartGame (m : GameMode)
| BlockClick (i : string)
| CheckSum
| Tick
| TogglePause
| Home
| LoadHighScore (saved : option string)
| UpdateHighScore.

Definition step (e : Event) (s : AppState) : AppState :=
  match e with
  | StartGame m => startGame m s
  | BlockClick i => handleBlockClick i s
  | CheckSum => checkSum s
  | Tick => if timerRunning s then advanceTime s else s
  | TogglePause =>
      if gameOver s then s else setIsPaused (negb (isPaused s)) s
  | Home => setMode None s
  | LoadHighScore saved => loadHighScore saved s
  | UpdateHighScore => updateHighScore s
  end.

(** The states that a run of events leads to from [s0]. *)
Inductive reachableFrom (s0 : AppState) : AppState -> Prop :=
| reach_here : reachableFrom s0 s0
| reach_step (e : Event) (s : AppState) :
    reachableFrom s0 s -> reachableFrom s0 (step e s).

End Engine.

(** ** Well-formed grids *)

(** The cell a tile occupies. *)
Definition cell (b : BlockData) : Z * Z := (row b, col b).

(** No two tiles share a cell, and every row is a row of the board. *)
Definition validGrid (g : list BlockData) : Prop :=
  NoDup (map cell g) /\ Forall (fun b => 0 <= row b <= GRID_ROWS - 1) g.

(** The consecutive integers [start], [start + 1], ... ([n] of them). *)
Fixpoint zrange (start : Z) (n : nat) : list Z :=
  match n with
  | O => []
  | S n' => start :: zrange (start + 1) n'
  end.

(** Two tiles that differ at most in their row, the second one [k] rows
    above the first. *)
Definition movedUp (k : Z) (b b' : BlockData) : Prop :=
  id b' = id b /\ value b' = value b /\ col b' = col b /\ row b' = row b - k.

(** The entries of the selection that are the id of a tile of the grid. *)
Definition presentIds (s : AppState) : list string :=
  filter (fun i => existsb (fun b => String.eqb (id b) i) (grid s))
         (selectedIds s).

(** Some tile occupies the top row. *)
Definition topRowOccupied (g : list BlockData) : Prop :=
  exists b, In b g /\ row b = 0.

(** ** The stored high score *)

(** [n.toString()] for an integer: the decimal digits, most significant
    first, after a minus sign for a negative number.  Domain of the model:
    integers of magnitude below 2^53, which a JavaScript number holds
    exactly and renders digit by digit (from 10^21 on the code switches to
    the exponent form). *)
Definition digitChar (d : Z) : ascii := ascii_of_nat (48 + Z.to_nat d).

Fixpoint digitsOf (fuel : nat) (n : Z) (acc : string) : string :=
  match fuel with
  | O => acc
  | S fuel' =>
      let acc' := String (digitChar (n mod 10)) acc in
      if n <? 10 then acc' else digitsOf fuel' (n / 10) acc'
  end.

(** More digits than the number has. *)
Definition digitFuel (n : Z) : nat := S (Z.to_nat (Z.log2 n)).

Definition numberToString (n : Z) : string :=
  if n <? 0 then String "-" (digitsOf (digitFuel (- n)) (- n) "")
  else digitsOf (digitFuel n) n "".

(** What the effect that records a new high score leaves in the browser
    storage under the key of the high score: [saved] is the entry before
    the effect runs. *)
Definition storeHighScore (saved : option string) (s : AppState)
  : option string :=
  if exceeds (score s) (highScore s) then Some (numberToString (score s))
  else saved.

(** The digits of [digitsOf], as numbers. *)
Fixpoint digitList (fuel : nat) (n : Z) (acc : list Z) : list Z :=
  match fuel with
  | O => acc
  | S fuel' =>
      let acc' := (n mod 10) :: acc in
      if n <? 10 then acc' else digitList fuel' (n / 10) acc'
  end.

(** ** The board *)

(** Every cell of the board, row by row. *)
Definition allCells : list (Z * Z) :=
  list_prod (zrange 0 (Z.to_nat GRID_ROWS)) (zrange 0 (Z.to_nat GRID_COLS)).

(** A grid whose tiles sit on distinct cells of the board. *)
Definition onBoard (g : list BlockData) : Prop :=
  validGrid g /\ Forall (fun b => 0 <= col b <= GRID_COLS - 1) g.

(** The cells [startGame] fills: the bottom [INITIAL_ROWS] rows, from the
    bottom row upwards, each from left to right. *)
Definition initialCells : list (Z * Z) :=
  list_prod [9; 8; 7; 6] [0; 1; 2; 3; 4; 5; 6].

(** The sum of the values of a list of tiles, as the evaluation of the
    selection computes it. *)
Definition sumOf (l : list BlockData) : Z :=
  fold_left (fun sum b => sum + value b) l 0.

(** The events other than the start of a session. *)
Definition inSession (e : Event) : bool :=
  match e with
  | StartGame _ => false
  | _ => true
  end.

(** *** Sample data *)

Definition sampleRandom : nat -> Q := fun k => Z.of_nat (k mod 7) # 7.
Definition sampleToString36 : Q -> string :=
  fun q => match Qnum q with
           | 0 => "0.k3f9x2a7"
           | 1 => "0.p0q8w1e5"
           | 2 => "0.z7m4n6b2"
           | 3 => "0.c5v1t9r8"
           | 4 => "0.h2j6d0s3"
           | 5 => "0.u9y4g7l1"
           | _ => "0.a1i8o5e6"
           end%string.

(** Time mode, one second left, a tile in the top row. *)
Definition fullTimeState : AppState :=
  mkState (Some time)
          [mkBlock "t0" 4 0 3; mkBlock "t1" 6 1 3]%string
          15 30 [] false 1 false (Num 30) 40%nat.

(** A selection that reaches the target, with one id that is not in the
    grid. *)
Definition staleSelectionState (m : GameMode) : AppState :=
  mkState (Some m)
          [mkBlock "a" 4 9 0; mkBlock "b" 6 9 1; mkBlock "c" 9 9 2]%string
          10 0 ["a"; "gone"; "b"]%string false TIME_LIMIT false (Num 0) 0%nat.

(** Two tiles that share an id; the selection holds that id and an id that
    is not in the grid. *)
Definition duplicateIdState : AppState :=
  mkState (Some time)
          [mkBlock "a" 4 9 0; mkBlock "a" 6 9 1; mkBlock "c" 9 9 2]%string
          10 0 ["a"; "gone"]%string false TIME_LIMIT false (Num 0) 0%nat.

(** Classic mode, nothing selected, one tile on the board. *)
Definition quietState : AppState :=
  mkState (Some classic) [mkBlock "a" 4 9 0]%string
          10 0 [] false TIME_LIMIT false (Num 0) 0%nat.

(** A selection that reaches the target. *)
Definition clearableState (m : GameMode) : AppState :=
  mkState (Some m)
          [mkBlock "a" 4 9 0; mkBlock "b" 6 9 1; mkBlock "c" 9 9 2]%string
          10 0 ["a"; "b"]%string false 3 false (Num 0) 0%nat.

(** A short run of the mounted component: the evaluation at mount, the
    start of a game in time mode, a click. *)
Definition sampleSession : AppState :=
  step sampleRandom sampleToString36 (BlockClick "p0q8w1e")
    (step sampleRandom sampleToString36 (StartGame time)
       (step sampleRandom sampleToString36 CheckSum initialState)).

(** A game with a score above the recorded high score. *)
Definition scoringState : AppState :=
  mkState (Some classic) [mkBlock "a" 4 9 0]%string
          12 120 [] false TIME_LIMIT false (Num 80) 7%nat.

(** Time mode, a fresh round, two tiles at the bottom. *)
Definition freshTimeState : AppState :=
  mkState (Some time)
          [mkBlock "a" 4 9 0; mkBlock "b" 6 9 1]%string
          10 0 [] false TIME_LIMIT false (Num 0) 0%nat.

(** ** Properties *)

(** *** Arrays built by [Array.from] *)

Lemma arrayFromAt_step {A} (n : nat) (start : Z) (f : Z -> Rand A) (k : nat) :
  arrayFromAt (S n) start f k =
  (fst (f start k) :: fst (arrayFromAt n (start + 1) f (snd (f start k))),
   snd (arrayFromAt n (start + 1) f (snd (f start k)))).
Proof.
  cbn [arrayFromAt]. unfold bind, ret.
  destruct (f start k) as [x k1]. cbn [fst snd].
  destruct (arrayFromAt n (start + 1) f k1) as [xs k2]. reflexivity.
Qed.

Lemma arrayFromAt_length {A} (n : nat) (start : Z) (f : Z -> Rand A) (k : nat) :
  List.length (fst (arrayFromAt n start f k)) = n.
Proof.
  revert start k. induction n as [|n IH]; intros start k.
  - reflexivity.
  - rewrite arrayFromAt_step. cbn [fst List.length]. now rewrite IH.
Qed.

Lemma arrayFromAt_Forall {A} (P : A -> Prop) (f : Z -> Rand A) :
  (forall i k, P (fst (f i k))) ->
  forall n start k, Forall P (fst (arrayFromAt n start f k)).
Proof.
  intros Hf n. induction n as [|n IH]; intros start k.
  - constructor.
  - rewrite arrayFromAt_step. cbn [fst]. constructor; [apply Hf | apply IH].
Qed.

Lemma arrayFromAt_index {A} (g : A -> Z) (f : Z -> Rand A) :
  (forall i k, g (fst (f i k)) = i) ->
  forall n start k, map g (fst (arrayFromAt n start f k)) = zrange start n.
Proof.
  intros Hf n. induction n as [|n IH]; intros start k.
  - reflexivity.
  - rewrite arrayFromAt_step. cbn [fst map zrange]. now rewrite Hf, IH.
Qed.

Lemma arrayFromAt_calls {A} (c : nat) (f : Z -> Rand A) :
  (forall i k, snd (f i k) = (c + k)%nat) ->
  forall n start k, snd (arrayFromAt n start f k) = (n * c + k)%nat.
Proof.
  intros Hf n. induction n as [|n IH]; intros start k.
  - reflexivity.
  - rewrite arrayFromAt_step. cbn [snd]. rewrite IH, Hf. lia.
Qed.


Section Properties.

Variable random : nat -> Q.
Variable toString36 : Q -> string.

(** [Math.random()] returns a number of the half-open unit interval. *)
Hypothesis random_unit : forall k, (0 <= random k)%Q /\ (random k < 1)%Q.

Lemma randomBelow_range (n : Z) (k : nat) :
  0 < n -> 0 <= fst (randomBelow random n k) < n.
Proof.
  intros Hn. change (0 <= Qfloor (random k * inject_Z n) < n).
  destruct (random_unit k) as [H0 H1].
  assert (Hn' : (0 < inject_Z n)%Q) by (change (inject_Z 0 < inject_Z n)%Q; rewrite <- Zlt_Qlt; exact Hn).
  split.
  - rewrite <- (Qfloor_Z 0). apply Qfloor_resp_le.
    apply Qmult_le_0_compat; [exact H0 | apply Qlt_le_weak; exact Hn'].
  - rewrite Zlt_Qlt.
    apply Qle_lt_trans with (random k * inject_Z n)%Q.
    + apply Qfloor_le.
    + rewrite <- (Qmult_1_l (inject_Z n)) at 2.
      apply Qmult_lt_compat_r; assumption.
Qed.

Lemma randomBelow_calls (n : Z) (k : nat) :
  snd (randomBelow random n k) = S k.
Proof. reflexivity. Qed.

(** *** A freshly created row *)

Lemma createRow_length (r : Z) (k : nat) :
  List.length (fst (createRow random toString36 r k)) = 7%nat.
Proof. apply arrayFromAt_length. Qed.

Lemma createRow_cols (r : Z) (k : nat) :
  map col (fst (createRow random toString36 r k)) = [0; 1; 2; 3; 4; 5; 6].
Proof.
  unfold createRow, arrayFrom.
  rewrite arrayFromAt_index by (intros; reflexivity). reflexivity.
Qed.

Lemma createRow_rows (r : Z) (k : nat) :
  Forall (fun b => row b = r) (fst (createRow random toString36 r k)).
Proof. apply arrayFromAt_Forall. intros; reflexivity. Qed.

Lemma createRow_values (r : Z) (k : nat) :
  Forall (fun b => 1 <= value b <= MAX_VALUE)
         (fst (createRow random toString36 r k)).
Proof.
  apply arrayFromAt_Forall. intros i n.
  change (1 <= fst (randomBelow random MAX_VALUE (S n)) + 1 <= MAX_VALUE).
  pose proof (randomBelow_range MAX_VALUE (S n)) as H.
  unfold MAX_VALUE in *. lia.
Qed.

Lemma createRow_calls (r : Z) (k : nat) :
  snd (createRow random toString36 r k) = (14 + k)%nat.
Proof.
  unfold createRow, arrayFrom.
  rewrite (arrayFromAt_calls 2) by (intros; reflexivity). reflexivity.
Qed.

(** *** Row injection *)

Lemma isFull_true_iff (g : list BlockData) :
  isFull g = true <-> topRowOccupied g.
Proof.
  unfold isFull, topRowOccupied. rewrite existsb_exists.
  split; intros [b [Hb H0]]; exists b; split; auto; lia.
Qed.

Lemma isFull_false_iff (g : list BlockData) :
  isFull g = false <-> (forall b, In b g -> row b <> 0).
Proof.
  split.
  - intros H b Hb H0.
    assert (isFull g = true) by (apply isFull_true_iff; exists b; auto).
    congruence.
  - intros H. destruct (isFull g) eqn:E; [|reflexivity].
    apply isFull_true_iff in E. destruct E as [b [Hb H0]].
    now elim (H b Hb).
Qed.

Lemma addRow_full (s : AppState) :
  isFull (grid s) = true ->
  addRow random toString36 s =
  match mode s with
  | Some time => setTimeLeft TIME_LIMIT (setGameOver true s)
  | _ => setGameOver true s
  end.
Proof. intros H. unfold addRow. now rewrite H. Qed.

Lemma addRow_free (s : AppState) :
  isFull (grid s) = false ->
  addRow random toString36 s =
  let created := createRow random toString36 (GRID_ROWS - 1) (randomCalls s) in
  let s1 := setGrid (map shiftUp (grid s) ++ fst created)
                    (setRandomCalls (snd created) s) in
  match mode s with
  | Some time => setTimeLeft TIME_LIMIT s1
  | _ => s1
  end.
Proof.
  intros H. unfold addRow, draw. rewrite H.
  destruct (createRow random toString36 (GRID_ROWS - 1) (randomCalls s)).
  reflexivity.
Qed.

Lemma movedUp_shiftUp (g : list BlockData) :
  Forall2 (movedUp 1) g (map shiftUp g).
Proof.
  induction g as [|b g IH]; constructor; auto.
  unfold movedUp, shiftUp; cbn; auto.
Qed.

(** C2: when no tile occupies row 0, [addRow] moves every existing tile up
    by exactly one row, leaving its id, value and column unchanged, and
    appends exactly [GRID_COLS] = 7 new tiles at row [GRID_ROWS - 1] = 9,
    one per column 0..6, each with a value between 1 and [MAX_VALUE] = 9. *)
Theorem addRow_shifts_and_appends (s : AppState) :
  (forall b, In b (grid s) -> row b <> 0) ->
  exists olds newRow,
    grid (addRow random toString36 s) = olds ++ newRow /\
    Forall2 (movedUp 1) (grid s) olds /\
    Z.of_nat (List.length newRow) = GRID_COLS /\
    map col newRow = [0; 1; 2; 3; 4; 5; 6] /\
    Forall (fun b => row b = GRID_ROWS - 1 /\ 1 <= value b <= MAX_VALUE) newRow.
Proof.
  intros Hfree. apply isFull_false_iff in Hfree.
  exists (map shiftUp (grid s)).
  exists (fst (createRow random toString36 (GRID_ROWS - 1) (randomCalls s))).
  split; [|split; [|split; [|split]]].
  - rewrite (addRow_free s Hfree). cbv zeta. now destruct (mode s) as [[|]|].
  - apply movedUp_shiftUp.
  - now rewrite createRow_length.
  - apply createRow_cols.
  - pose proof (createRow_rows (GRID_ROWS - 1) (randomCalls s)) as Hr.
    pose proof (createRow_values (GRID_ROWS - 1) (randomCalls s)) as Hv.
    rewrite Forall_forall in *. intros b Hb. split; auto.
Qed.

(** C3 (amended): when some tile occupies row 0, [addRow] sets [gameOver],
    leaves the grid unmodified and draws no random number; mode, target,
    score, selection, pause flag and high score are unchanged; [timeLeft] is
    unchanged outside of time mode and is reset to [TIME_LIMIT] in time
    mode. *)
Theorem addRow_full_frame (s : AppState) :
  topRowOccupied (grid s) ->
  let s' := addRow random toString36 s in
  gameOver s' = true /\ grid s' = grid s /\
  mode s' = mode s /\ target s' = target s /\ score s' = score s /\
  selectedIds s' = selectedIds s /\ isPaused s' = isPaused s /\
  highScore s' = highScore s /\ randomCalls s' = randomCalls s /\
  (mode s <> Some time -> timeLeft s' = timeLeft s) /\
  (mode s = Some time -> timeLeft s' = TIME_LIMIT).
Proof.
  intros Hfull. apply isFull_true_iff in Hfull.
  cbv zeta. rewrite (addRow_full s Hfull).
  destruct (mode s) as [[|]|] eqn:Em; cbn; repeat split; auto; congruence.
Qed.

(** *** The countdown *)

Lemma setTimeLeft_same (s : AppState) : setTimeLeft (timeLeft s) s = s.
Proof. now destruct s. Qed.

Lemma setTimeLeft_twice (a b : Z) (s : AppState) :
  setTimeLeft a (setTimeLeft b s) = setTimeLeft a s.
Proof. reflexivity. Qed.

Lemma advanceTime_decrements (k : nat) (s : AppState) :
  Z.of_nat k < timeLeft s ->
  Nat.iter k (advanceTime random toString36) s =
  setTimeLeft (timeLeft s - Z.of_nat k) s.
Proof.
  induction k as [|k IH]; intros Hk.
  - cbn [Nat.iter]. change (Z.of_nat 0) with 0. rewrite Z.sub_0_r.
    symmetry. apply setTimeLeft_same.
  - rewrite Nat.iter_succ, IH by lia. unfold advanceTime.
    change (timeLeft (setTimeLeft (timeLeft s - Z.of_nat k) s))
      with (timeLeft s - Z.of_nat k).
    destruct (Z.leb_spec (timeLeft s - Z.of_nat k) 1) as [Hle|_]; [lia|].
    rewrite setTimeLeft_twice. f_equal. lia.
Qed.


Lemma addRow_timeLeft_time (s : AppState) :
  mode s = Some time -> timeLeft (addRow random toString36 s) = TIME_LIMIT.
Proof.
  intros Hm. unfold addRow, draw. rewrite Hm. destruct (isFull (grid s)).
  - reflexivity.
  - destruct (createRow random toString36 (GRID_ROWS - 1) (randomCalls s)).
    reflexivity.
Qed.


(** *** Targets *)

Lemma generateTarget_eq (s : AppState) :
  generateTarget random s =
  setTarget (arrayGet targetValues
               (fst (randomBelow random 6 (randomCalls s))))
            (setRandomCalls (S (randomCalls s)) s).
Proof. reflexivity. Qed.

Lemma generateTarget_in (s : AppState) :
  In (target (generateTarget random s)) targetValues.
Proof.
  rewrite generateTarget_eq. cbn [target setTarget].
  pose proof (randomBelow_range 6 (randomCalls s)) as H.
  set (i := fst (randomBelow random 6 (randomCalls s))) in *.
  assert (Hi : i = 0 \/ i = 1 \/ i = 2 \/ i = 3 \/ i = 4 \/ i = 5) by lia.
  destruct Hi as [E|[E|[E|[E|[E|E]]]]]; rewrite E; cbn; auto 10.
Qed.

Lemma targetValues_positive (t : Z) : In t targetValues -> 0 < t.
Proof. cbn. intros H. lia. Qed.

(** *** Selection evaluation *)

Lemma includes_In (ids : list string) (i : string) :
  includes ids i = true <-> In i ids.
Proof.
  unfold includes. rewrite existsb_exists. split.
  - intros [j [Hj E]]. apply String.eqb_eq in E. now subst.
  - intros H. exists i. split; [exact H | apply String.eqb_refl].
Qed.


Lemma selectedBlocks_spec (s : AppState) (b : BlockData) :
  In b (selectedBlocks s) <-> In b (grid s) /\ In (id b) (selectedIds s).
Proof.
  unfold selectedBlocks. now rewrite filter_In, includes_In.
Qed.

Lemma clearSelected_eq (s : AppState) :
  clearSelected random s =
  generateTarget random
    (setSelectedIds []
       (setGrid (remainingBlocks s)
          (setScore (score s + Z.of_nat (List.length (selectedIds s)) * 10) s))).
Proof. reflexivity. Qed.

Lemma checkSum_clear_eq (s : AppState) :
  currentSum s = target s ->
  checkSum random toString36 s =
  match mode s with
  | Some classic => addRow random toString36 (clearSelected random s)
  | Some time => setTimeLeft TIME_LIMIT (clearSelected random s)
  | None => clearSelected random s
  end.
Proof. intros H. unfold checkSum. now rewrite H, Z.eqb_refl. Qed.

(** The cells that [addRow] leaves alone. *)
Lemma addRow_frame (s : AppState) :
  let s' := addRow random toString36 s in
  mode s' = mode s /\ target s' = target s /\ score s' = score s /\
  selectedIds s' = selectedIds s /\ isPaused s' = isPaused s /\
  highScore s' = highScore s /\
  (mode s <> Some time -> timeLeft s' = timeLeft s).
Proof.
  cbv zeta. unfold addRow, draw. destruct (isFull (grid s)).
  - destruct (mode s) as [[|]|] eqn:Em; cbn; repeat split; intros; congruence.
  - destruct (createRow random toString36 (GRID_ROWS - 1) (randomCalls s)).
    destruct (mode s) as [[|]|] eqn:Em; cbn; repeat split; intros; congruence.
Qed.

Lemma movedUp_refl (g : list BlockData) : Forall2 (movedUp 0) g g.
Proof.
  induction g as [|b g IH]; constructor; auto.
  unfold movedUp. repeat split. lia.
Qed.


(** C8: a clear in classic mode is followed by exactly one row injection,
    applied to the grid without the selected tiles (it ends the game when a
    remaining tile is in row 0, and otherwise moves the remaining tiles up
    and appends one new row), and it leaves [timeLeft] alone; a clear in
    time mode injects no row (the grid is the remaining tiles, unmoved, no
    tile is created, the game does not end) and sets [timeLeft] to
    [TIME_LIMIT]. *)
Theorem clear_round_advance (s : AppState) :
  currentSum s = target s ->
  let s' := checkSum random toString36 s in
  (mode s = Some classic ->
     s' = addRow random toString36 (clearSelected random s) /\
     timeLeft s' = timeLeft s /\
     (topRowOccupied (remainingBlocks s) ->
        gameOver s' = true /\ grid s' = remainingBlocks s) /\
     ((forall b, In b (remainingBlocks s) -> row b <> 0) ->
        gameOver s' = gameOver s /\
        grid s' = map shiftUp (remainingBlocks s) ++
                  fst (createRow random toString36 (GRID_ROWS - 1)
                         (S (randomCalls s))))) /\
  (mode s = Some time ->
     s' = setTimeLeft TIME_LIMIT (clearSelected random s) /\
     grid s' = remainingBlocks s /\
     gameOver s' = gameOver s /\
     randomCalls s' = S (randomCalls s) /\
     timeLeft s' = TIME_LIMIT).
Proof.
  intros Hsum. cbv zeta. rewrite (checkSum_clear_eq s Hsum).
  split; intros Em; rewrite Em.
  - split; [reflexivity|]. split; [|split].
    + pose proof (addRow_frame (clearSelected random s)) as F. cbv zeta in F.
      destruct F as [_ [_ [_ [_ [_ [_ F]]]]]]. rewrite F; [reflexivity|].
      change (mode (clearSelected random s)) with (mode s). congruence.
    + intros Hfull. apply isFull_true_iff in Hfull.
      rewrite (addRow_full (clearSelected random s) Hfull).
      change (mode (clearSelected random s)) with (mode s). rewrite Em.
      split; reflexivity.
    + intros Hfree. apply isFull_false_iff in Hfree.
      rewrite (addRow_free (clearSelected random s) Hfree). cbv zeta.
      change (mode (clearSelected random s)) with (mode s). rewrite Em.
      split; reflexivity.
  - repeat split.
Qed.

(** *** Selected ids that are not in the grid *)

Lemma includes_presentIds (s : AppState) (b : BlockData) :
  In b (grid s) ->
  includes (presentIds s) (id b) = includes (selectedIds s) (id b).
Proof.
  intros Hb. apply eq_true_iff_eq. rewrite !includes_In.
  unfold presentIds. rewrite filter_In, existsb_exists. split.
  - tauto.
  - intros H. split; [exact H|]. exists b. split; [exact Hb|].
    apply String.eqb_refl.
Qed.

Lemma currentSum_presentIds (s : AppState) :
  currentSum (setSelectedIds (presentIds s) s) = currentSum s.
Proof.
  unfold currentSum, selectedBlocks. cbn [grid selectedIds setSelectedIds].
  f_equal. apply filter_ext_in. intros b Hb. now apply includes_presentIds.
Qed.

(** Dropping tiles keeps distinct keys (ids, or cells) distinct. *)
Lemma distinct_keys_filter {K : Type} (key : BlockData -> K)
      (keep : BlockData -> bool) :
  forall g : list BlockData,
    NoDup (map key g) -> NoDup (map key (filter keep g)).
Proof.
  induction g as [|b g IH]; intros Hnd; cbn; [constructor|].
  apply NoDup_cons_iff in Hnd. destruct Hnd as [Hfresh Hrest].
  destruct (keep b); [|now apply IH].
  cbn. constructor; [|now apply IH].
  intros Hin. apply Hfresh. apply in_map_iff in Hin.
  destruct Hin as [b' [Ekey Hb']]. apply filter_In in Hb'.
  apply in_map_iff. exists b'. tauto.
Qed.

Lemma filter_length_lt {A} (p : A -> bool) (l : list A) (x : A) :
  In x l -> p x = false -> (List.length (filter p l) < List.length l)%nat.
Proof.
  intros Hin Hp. pose proof (filter_length p l) as Hlen.
  assert (Hx : In x (filter (fun y => negb (p y)) l))
    by (apply filter_In; split; [exact Hin | now rewrite Hp]).
  destruct (filter (fun y => negb (p y)) l); [contradiction|].
  cbn [List.length] in Hlen. lia.
Qed.

Lemma selectedBlocks_count (s : AppState) :
  NoDup (map id (grid s)) ->
  (List.length (selectedBlocks s) <= List.length (presentIds s))%nat.
Proof.
  intros Hnd. rewrite <- (length_map id (selectedBlocks s)).
  apply NoDup_incl_length.
  - unfold selectedBlocks. now apply distinct_keys_filter.
  - intros i Hi. apply in_map_iff in Hi. destruct Hi as [b [E Hb]]. subst i.
    apply selectedBlocks_spec in Hb. destruct Hb as [Hg Hsel].
    apply includes_In. rewrite (includes_presentIds s b Hg).
    now apply includes_In.
Qed.

Lemma removed_count (s : AppState) :
  (List.length (grid s) =
   List.length (selectedBlocks s) + List.length (remainingBlocks s))%nat.
Proof.
  unfold selectedBlocks, remainingBlocks. symmetry. apply filter_length.
Qed.

(** The grid after a clear: the tiles whose id is not selected, in order and
    moved up by 0 or 1 rows, followed by nothing or by one created row. *)
Lemma clear_grid_shape (s : AppState) :
  currentSum s = target s ->
  exists k olds fresh,
    (k = 0 \/ k = 1) /\
    grid (checkSum random toString36 s) = olds ++ fresh /\
    Forall2 (movedUp k) (remainingBlocks s) olds /\
    (fresh = [] \/
     fresh = fst (createRow random toString36 (GRID_ROWS - 1)
                    (S (randomCalls s)))).
Proof.
  intros Hsum. rewrite (checkSum_clear_eq s Hsum).
  assert (Hstay : exists k olds fresh,
            (k = 0 \/ k = 1) /\
            grid (clearSelected random s) = olds ++ fresh /\
            Forall2 (movedUp k) (remainingBlocks s) olds /\
            (fresh = [] \/
             fresh = fst (createRow random toString36 (GRID_ROWS - 1)
                            (S (randomCalls s))))).
  { exists 0, (remainingBlocks s), []. rewrite app_nil_r.
    repeat split; auto using movedUp_refl. }
  destruct (mode s) as [[|]|] eqn:Em; [|exact Hstay|exact Hstay].
  destruct (isFull (grid (clearSelected random s))) eqn:Efull.
  - rewrite (addRow_full _ Efull).
    change (mode (clearSelected random s)) with (mode s). rewrite Em.
    exact Hstay.
  - exists 1, (map shiftUp (remainingBlocks s)),
      (fst (createRow random toString36 (GRID_ROWS - 1) (S (randomCalls s)))).
    rewrite (addRow_free _ Efull). cbv zeta.
    change (mode (clearSelected random s)) with (mode s). rewrite Em.
    repeat split; auto using movedUp_shiftUp.
Qed.

(** C10 (amended): the sum is computed from the selected ids that are ids of
    tiles of the grid (dropping the other ids from the selection does not
    change it), while a clear adds ten times the number of all selected ids
    to the score; so when the tiles of the grid have pairwise distinct ids,
    some selected id is not in the grid and the sum reaches the target, the
    score grows by strictly more than ten times the number of tiles
    removed, that number being counted on the grid after the clear: the
    tiles of the old grid that are not among the old tiles the new grid
    keeps. *)
Theorem stale_ids_inflate_score (s : AppState) :
  NoDup (map id (grid s)) ->
  (exists i, In i (selectedIds s) /\ ~ In i (map id (grid s))) ->
  currentSum s = target s ->
  let s' := checkSum random toString36 s in
  currentSum (setSelectedIds (presentIds s) s) = currentSum s /\
  score s' - score s = 10 * Z.of_nat (List.length (selectedIds s)) /\
  exists olds fresh,
    grid s' = olds ++ fresh /\
    (exists k, (k = 0 \/ k = 1) /\ Forall2 (movedUp k) (remainingBlocks s) olds) /\
    (fresh = [] \/
     fresh = fst (createRow random toString36 (GRID_ROWS - 1)
                    (S (randomCalls s)))) /\
    let removed := (List.length (grid s) - List.length olds)%nat in
    removed = List.length (selectedBlocks s) /\
    score s' - score s > 10 * Z.of_nat removed.
Proof.
  intros Hnd [i [Hsel Habs]] Hsum. cbv zeta.
  assert (Hscore : score (checkSum random toString36 s) - score s
                   = 10 * Z.of_nat (List.length (selectedIds s))).
  { rewrite (checkSum_clear_eq s Hsum).
    pose proof (addRow_frame (clearSelected random s)) as F. cbv zeta in F.
    destruct F as [_ [_ [Fs _]]].
    assert (Hc : score (clearSelected random s)
                 = score s + Z.of_nat (List.length (selectedIds s)) * 10)
      by reflexivity.
    destruct (mode s) as [[|]|]; [rewrite Fs| |];
      try change (score (setTimeLeft TIME_LIMIT (clearSelected random s)))
        with (score (clearSelected random s));
      rewrite Hc; lia. }
  assert (Hlt : (List.length (presentIds s) < List.length (selectedIds s))%nat).
  { unfold presentIds. apply filter_length_lt with (x := i); [exact Hsel|].
    destruct (existsb (fun b => String.eqb (id b) i) (grid s)) eqn:E;
      [|reflexivity].
    apply existsb_exists in E. destruct E as [b [Hb Eb]].
    apply String.eqb_eq in Eb. elim Habs. apply in_map_iff. now exists b. }
  pose proof (selectedBlocks_count s Hnd) as Hle.
  pose proof (removed_count s) as Hrem.
  split; [apply currentSum_presentIds|]. split; [exact Hscore|].
  destruct (clear_grid_shape s Hsum) as [k [olds [fresh [Hk [Hg [Hold Hfresh]]]]]].
  exists olds, fresh. split; [exact Hg|]. split; [now exists k|].
  split; [exact Hfresh|].
  pose proof (Forall2_length Hold) as Hlen.
  split; [lia|]. rewrite Hscore. lia.
Qed.

(** *** Clicks *)

Lemma handleBlockClick_blocked (i : string) (s : AppState) :
  gameOver s || isPaused s = true -> handleBlockClick i s = s.
Proof. intros H. unfold handleBlockClick. now rewrite H. Qed.

Lemma handleBlockClick_grid (i : string) (s : AppState) :
  grid (handleBlockClick i s) = grid s.
Proof. unfold handleBlockClick. now destruct (gameOver s || isPaused s). Qed.

Lemma includes_app (l1 l2 : list string) (j : string) :
  includes (l1 ++ l2) j = includes l1 j || includes l2 j.
Proof. apply existsb_app. Qed.

Lemma includes_filter_other (l : list string) (i j : string) :
  j <> i ->
  includes (filter (fun x => negb (String.eqb x i)) l) j = includes l j.
Proof.
  intros Hne. apply eq_true_iff_eq. rewrite !includes_In, filter_In.
  rewrite negb_true_iff, String.eqb_neq. split; [tauto|].
  intros H. split; [exact H | exact Hne].
Qed.

(** The sum does not see an id that no tile of the grid carries. *)
Lemma currentSum_stale (i : string) (l : list string) (s : AppState) :
  ~ In i (map id (grid s)) ->
  (forall j, j <> i -> includes l j = includes (selectedIds s) j) ->
  currentSum (setSelectedIds l s) = currentSum s.
Proof.
  intros Habs Hl. unfold currentSum, selectedBlocks.
  cbn [grid selectedIds setSelectedIds]. f_equal.
  apply filter_ext_in. intros b Hb. apply Hl.
  intros E. apply Habs. rewrite <- E. now apply in_map.
Qed.

(** C4 (amended): for an id that no tile of the grid carries,
    [handleBlockClick] does nothing when the game is over or paused;
    otherwise it toggles the id like any other one (appended when it is not
    selected, removed when it is), so the selection changes, while the grid
    and every other cell of the state stay as they are and the sum of the
    selection is unchanged. *)
Theorem handleBlockClick_stale (i : string) (s : AppState) :
  ~ In i (map id (grid s)) ->
  let s' := handleBlockClick i s in
  (gameOver s || isPaused s = true -> s' = s) /\
  (gameOver s || isPaused s = false ->
     (~ In i (selectedIds s) -> s' = setSelectedIds (selectedIds s ++ [i]) s) /\
     (In i (selectedIds s) ->
        s' = setSelectedIds
               (filter (fun j => negb (String.eqb j i)) (selectedIds s)) s) /\
     (In i (selectedIds s') <-> ~ In i (selectedIds s)) /\
     selectedIds s' <> selectedIds s /\
     currentSum s' = currentSum s).
Proof.
  intros Habs. cbv zeta. split; [apply handleBlockClick_blocked|].
  intros Hgo. unfold handleBlockClick. rewrite Hgo.
  destruct (includes (selectedIds s) i) eqn:Einc.
  - assert (Hin : In i (selectedIds s)) by now apply includes_In.
    assert (Hout : ~ In i (filter (fun j => negb (String.eqb j i)) (selectedIds s))).
    { rewrite filter_In, negb_true_iff, String.eqb_neq. tauto. }
    split; [tauto|]. split; [reflexivity|].
    cbn [selectedIds setSelectedIds]. split; [tauto|]. split.
    + intros E. rewrite E in Hout. contradiction.
    + apply (currentSum_stale i); [exact Habs|].
      intros j Hj. now apply includes_filter_other.
  - assert (Hnin : ~ In i (selectedIds s)).
    { rewrite <- includes_In. congruence. }
    split; [reflexivity|]. split; [tauto|].
    cbn [selectedIds setSelectedIds]. split; [|split].
    + rewrite in_app_iff. cbn. tauto.
    + intros E. apply (f_equal (@List.length string)) in E.
      rewrite length_app in E. cbn in E. lia.
    + apply (currentSum_stale i); [exact Habs|].
      intros j Hj. rewrite includes_app. cbn.
      replace (String.eqb j i) with false
        by (symmetry; now apply String.eqb_neq).
      now rewrite !orb_false_r.
Qed.

(** *** The grid invariant *)

Lemma cells_of_row (r : Z) (l : list BlockData) :
  Forall (fun b => row b = r) l -> map cell l = map (pair r) (map col l).
Proof.
  induction 1 as [|b l Hb _ IH]; cbn; [reflexivity|].
  unfold cell at 1. now rewrite Hb, IH.
Qed.

Lemma createRow_NoDup (r : Z) (k : nat) :
  NoDup (map cell (fst (createRow random toString36 r k))).
Proof.
  rewrite (cells_of_row r) by apply createRow_rows.
  rewrite createRow_cols. apply Injective_map_NoDup.
  - intros x y E. now inversion E.
  - repeat constructor; cbn; intuition discriminate.
Qed.

Lemma validGrid_filter (p : BlockData -> bool) (g : list BlockData) :
  validGrid g -> validGrid (filter p g).
Proof.
  intros [Hnd Hrows]. split.
  - now apply distinct_keys_filter.
  - rewrite Forall_forall in *. intros b Hb. apply filter_In in Hb.
    apply Hrows. tauto.
Qed.

Lemma validGrid_shift_append (g newRow : list BlockData) :
  validGrid g ->
  (forall b, In b g -> row b <> 0) ->
  NoDup (map cell newRow) ->
  Forall (fun b => row b = GRID_ROWS - 1) newRow ->
  validGrid (map shiftUp g ++ newRow).
Proof.
  intros [Hnd Hrows] Hfree Hnew Hlast. rewrite Forall_forall in Hrows, Hlast.
  split.
  - rewrite map_app. apply NoDup_app.
    + rewrite map_map.
      replace (map (fun b => cell (shiftUp b)) g)
        with (map (fun c => (fst c - 1, snd c)) (map cell g))
        by (rewrite map_map; reflexivity).
      apply Injective_map_NoDup; [|exact Hnd].
      intros [r1 c1] [r2 c2] E. cbn in E. inversion E. f_equal. lia.
    + exact Hnew.
    + intros c Hold Hc. rewrite map_map in Hold.
      apply in_map_iff in Hold. destruct Hold as [b [Eb Hb]].
      apply in_map_iff in Hc. destruct Hc as [b' [Eb' Hb']].
      pose proof (Hrows b Hb) as Hr. pose proof (Hlast b' Hb') as Hr'.
      subst c. unfold cell, shiftUp in Eb'. cbn in Eb'. inversion Eb'.
      unfold GRID_ROWS in *. lia.
  - apply Forall_app. split; rewrite Forall_forall.
    + intros b' Hb'. apply in_map_iff in Hb'. destruct Hb' as [b [E Hb]].
      subst b'. pose proof (Hrows b Hb). pose proof (Hfree b Hb).
      cbn. unfold GRID_ROWS in *. lia.
    + intros b Hb. rewrite (Hlast b Hb). unfold GRID_ROWS. lia.
Qed.

Lemma validGrid_addRow (s : AppState) :
  validGrid (grid s) -> validGrid (grid (addRow random toString36 s)).
Proof.
  intros Hv. destruct (isFull (grid s)) eqn:Efull.
  - rewrite (addRow_full s Efull). now destruct (mode s) as [[|]|].
  - rewrite (addRow_free s Efull). cbv zeta.
    assert (validGrid (map shiftUp (grid s) ++
              fst (createRow random toString36 (GRID_ROWS - 1) (randomCalls s)))).
    { apply validGrid_shift_append; auto.
      - now apply isFull_false_iff.
      - apply createRow_NoDup.
      - apply createRow_rows. }
    now destruct (mode s) as [[|]|].
Qed.

Lemma initialGridFrom_step (n : nat) (i : Z) (k : nat) :
  fst (initialGridFrom random toString36 (S n) i k) =
  fst (createRow random toString36 (GRID_ROWS - 1 - i) k) ++
  fst (initialGridFrom random toString36 n (i + 1)
         (snd (createRow random toString36 (GRID_ROWS - 1 - i) k))).
Proof.
  cbn [initialGridFrom]. unfold bind at 1.
  destruct (createRow random toString36 (GRID_ROWS - 1 - i) k) as [r k1].
  unfold bind, ret. cbn [fst snd].
  now destruct (initialGridFrom random toString36 n (i + 1) k1).
Qed.

Lemma initialGridFrom_valid (n : nat) (i : Z) (k : nat) :
  let g := fst (initialGridFrom random toString36 n i k) in
  NoDup (map cell g) /\
  Forall (fun b => GRID_ROWS - 1 - i - Z.of_nat n < row b <= GRID_ROWS - 1 - i) g.
Proof.
  revert i k. induction n as [|n IH]; intros i k; cbv zeta.
  - cbn. split; constructor.
  - rewrite initialGridFrom_step.
    set (k1 := snd (createRow random toString36 (GRID_ROWS - 1 - i) k)).
    destruct (IH (i + 1) k1) as [Hnd Hrows]. cbv zeta in Hnd, Hrows.
    pose proof (createRow_rows (GRID_ROWS - 1 - i) k) as Hr.
    rewrite Forall_forall in Hrows, Hr. split.
    + rewrite map_app. apply NoDup_app; [apply createRow_NoDup | exact Hnd |].
      intros c Hc Hc'.
      apply in_map_iff in Hc. destruct Hc as [b [Eb Hb]].
      apply in_map_iff in Hc'. destruct Hc' as [b' [Eb' Hb']].
      pose proof (Hr b Hb). pose proof (Hrows b' Hb').
      subst c. unfold cell in Eb'. inversion Eb'. lia.
    + apply Forall_app. split; rewrite Forall_forall; intros b Hb.
      * rewrite (Hr b Hb). lia.
      * pose proof (Hrows b Hb). lia.
Qed.

Lemma startGame_grid (m : GameMode) (s : AppState) :
  grid (startGame random toString36 m s) =
  fst (initialGridFrom random toString36 (Z.to_nat INITIAL_ROWS) 0 (randomCalls s)).
Proof.
  unfold startGame, draw. cbn [randomCalls setMode].
  now destruct (initialGridFrom random toString36 (Z.to_nat INITIAL_ROWS) 0
                  (randomCalls s)).
Qed.

Lemma validGrid_startGame (m : GameMode) (s : AppState) :
  validGrid (grid (startGame random toString36 m s)).
Proof.
  rewrite startGame_grid.
  destruct (initialGridFrom_valid (Z.to_nat INITIAL_ROWS) 0 (randomCalls s))
    as [Hnd Hrows].
  split; [exact Hnd|]. cbv zeta in Hrows. rewrite Forall_forall in *.
  intros b Hb. specialize (Hrows b Hb). unfold GRID_ROWS, INITIAL_ROWS in *. lia.
Qed.

Lemma validGrid_checkSum (s : AppState) :
  validGrid (grid s) -> validGrid (grid (checkSum random toString36 s)).
Proof.
  intros Hv. unfold checkSum.
  assert (Hc : validGrid (grid (clearSelected random s)))
    by (apply validGrid_filter; exact Hv).
  destruct (currentSum s =? target s).
  - destruct (mode s) as [[|]|]; [now apply validGrid_addRow | exact Hc | exact Hc].
  - now destruct (currentSum s >? target s).
Qed.

Lemma validGrid_advanceTime (s : AppState) :
  validGrid (grid s) -> validGrid (grid (advanceTime random toString36 s)).
Proof.
  intros Hv. unfold advanceTime. destruct (timeLeft s <=? 1); [|exact Hv].
  now apply validGrid_addRow.
Qed.

(** C5: a new session starts from a grid in which no two tiles share a cell
    and every row lies between 0 and [GRID_ROWS - 1]; a click, the
    evaluation of the selection, a row injection and a tick of the countdown
    each keep such a grid such a grid. *)
Theorem validGrid_preserved (m : GameMode) (i : string) (s : AppState) :
  validGrid (grid (startGame random toString36 m s)) /\
  (validGrid (grid s) ->
     validGrid (grid (handleBlockClick i s)) /\
     validGrid (grid (checkSum random toString36 s)) /\
     validGrid (grid (addRow random toString36 s)) /\
     validGrid (grid (advanceTime random toString36 s))).
Proof.
  split; [apply validGrid_startGame|]. intros Hv.
  rewrite handleBlockClick_grid.
  auto using validGrid_checkSum, validGrid_addRow, validGrid_advanceTime.
Qed.

(** *** The empty selection *)

Lemma currentSum_empty (s : AppState) : selectedIds s = [] -> currentSum s = 0.
Proof.
  intros H. unfold currentSum, selectedBlocks. rewrite H.
  replace (filter (fun b => includes [] (id b)) (grid s)) with (@nil BlockData);
    [reflexivity|].
  induction (grid s) as [|b g IH]; [reflexivity | exact IH].
Qed.

(** With a target above zero, the evaluation of an empty selection does
    nothing. *)
Lemma empty_selection_no_clear (s : AppState) :
  selectedIds s = [] -> 0 < target s -> checkSum random toString36 s = s.
Proof.
  intros Hsel Ht. unfold checkSum. rewrite (currentSum_empty s Hsel).
  destruct (Z.eqb_spec 0 (target s)) as [E|_]; [lia|].
  destruct (Z.gtb_spec 0 (target s)) as [E|_]; [lia|reflexivity].
Qed.

Lemma startGame_target (m : GameMode) (s : AppState) :
  In (target (startGame random toString36 m s)) targetValues.
Proof.
  unfold startGame, draw. cbn [randomCalls setMode].
  destruct (initialGridFrom random toString36 (Z.to_nat INITIAL_ROWS) 0
              (randomCalls s)) as [g k].
  apply generateTarget_in.
Qed.

Lemma addRow_target (s : AppState) :
  target (addRow random toString36 s) = target s.
Proof. pose proof (addRow_frame s) as F. cbv zeta in F. tauto. Qed.

Lemma step_target (e : Event) (s : AppState) :
  In (target s) targetValues ->
  In (target (step random toString36 e s)) targetValues.
Proof.
  intros H. destruct e; cbn [step].
  - apply startGame_target.
  - unfold handleBlockClick. now destruct (gameOver s || isPaused s).
  - unfold checkSum. destruct (currentSum s =? target s).
    + assert (Hc : In (target (clearSelected random s)) targetValues)
        by (rewrite clearSelected_eq; apply generateTarget_in).
      destruct (mode s) as [[|]|]; [rewrite addRow_target| |]; exact Hc.
    + now destruct (currentSum s >? target s).
  - destruct (timerRunning s); [|exact H]. unfold advanceTime.
    destruct (timeLeft s <=? 1); [|exact H].
    cbn [target setTimeLeft]. now rewrite addRow_target.
  - now destruct (gameOver s).
  - exact H.
  - unfold loadHighScore. destruct saved as [str|]; [|exact H].
    now destruct (truthy (Some str)).
  - unfold updateHighScore. now destruct (exceeds (score s) (highScore s)).
Qed.

(** Once a target has been drawn, every later target is one of the list. *)
Lemma reachable_target (s0 s : AppState) :
  In (target s0) targetValues ->
  reachableFrom random toString36 s0 s ->
  In (target s) targetValues.
Proof.
  intros H0 Hr. induction Hr as [|e s _ IH]; [exact H0|].
  now apply step_target.
Qed.

(** After a first target has been drawn, the evaluation of an empty
    selection never clears. *)
Lemma no_clear_on_empty_selection (s0 s : AppState) :
  In (target s0) targetValues ->
  reachableFrom random toString36 s0 s ->
  selectedIds s = [] ->
  checkSum random toString36 s = s.
Proof.
  intros H0 Hr Hsel. apply empty_selection_no_clear; [exact Hsel|].
  apply targetValues_positive. now apply (reachable_target s0).
Qed.

(** C6 (the code at the failing input): in the state the component mounts
    in, the selection is empty, its sum 0 equals the initial target 0, and
    the evaluation of the selection takes the branch of a clear: it is the
    run of [clearSelected], which draws a random number for a new target. *)
Theorem mount_evaluation_clears :
  reachableFrom random toString36 initialState initialState /\
  selectedIds initialState = [] /\
  ~ In (target initialState) targetValues /\
  currentSum initialState = target initialState /\
  checkSum random toString36 initialState = clearSelected random initialState /\
  checkSum random toString36 initialState <> initialState /\
  randomCalls (checkSum random toString36 initialState) = 1%nat.
Proof.
  split; [constructor|]. split; [reflexivity|].
  split; [cbn; intuition discriminate|].
  repeat split. discriminate.
Qed.

(** *** Whole runs *)

Lemma step_validGrid (e : Event) (s : AppState) :
  validGrid (grid s) -> validGrid (grid (step random toString36 e s)).
Proof.
  intros Hv. destruct e; cbn [step].
  - apply validGrid_startGame.
  - now rewrite handleBlockClick_grid.
  - now apply validGrid_checkSum.
  - destruct (timerRunning s); [now apply validGrid_advanceTime | exact Hv].
  - now destruct (gameOver s).
  - exact Hv.
  - unfold loadHighScore. destruct saved as [str|]; [|exact Hv].
    now destruct (truthy (Some str)).
  - unfold updateHighScore. now destruct (exceeds (score s) (highScore s)).
Qed.

(** At every point of every run from the mounted component, no two tiles
    share a cell and every row is a row of the board. *)
Lemma reachable_validGrid (s : AppState) :
  reachableFrom random toString36 initialState s -> validGrid (grid s).
Proof.
  induction 1 as [|e s _ IH].
  - split; constructor.
  - now apply step_validGrid.
Qed.

(** While the interval is installed, its ticks are the runs of the
    callback: a full round of the timer is a full round of [advanceTime]. *)
Lemma tick_round (s : AppState) (k : nat) :
  timerRunning s = true ->
  Z.of_nat k <= timeLeft s ->
  Nat.iter k (step random toString36 Tick) s =
  Nat.iter k (advanceTime random toString36) s.
Proof.
  intros Hrun. induction k as [|k IH]; intros Hk; [reflexivity|].
  rewrite !Nat.iter_succ, IH by lia. cbn [step].
  rewrite advanceTime_decrements by lia.
  change (timerRunning (setTimeLeft (timeLeft s - Z.of_nat k) s))
    with (timerRunning s).
  now rewrite Hrun.
Qed.

End Properties.

(** *** Instances on the sample data *)

Lemma sampleRandom_unit (k : nat) :
  (0 <= sampleRandom k)%Q /\ (sampleRandom k < 1)%Q.
Proof.
  unfold sampleRandom, Qle, Qlt. cbn [Qnum Qden].
  pose proof (Nat.mod_upper_bound k 7). lia.
Qed.

Lemma addRow_shifts_and_appends_witness :
  exists olds newRow,
    grid (addRow sampleRandom sampleToString36 freshTimeState) = olds ++ newRow /\
    Forall2 (movedUp 1) (grid freshTimeState) olds /\
    Z.of_nat (List.length newRow) = GRID_COLS /\
    map col newRow = [0; 1; 2; 3; 4; 5; 6] /\
    Forall (fun b => row b = GRID_ROWS - 1 /\ 1 <= value b <= MAX_VALUE) newRow.
Proof.
  apply (addRow_shifts_and_appends sampleRandom sampleToString36
           sampleRandom_unit freshTimeState).
  cbn. intros b [H|[H|[]]]; subst b; cbn; lia.
Defined.

Lemma addRow_full_frame_witness :
  topRowOccupied (grid fullTimeState) /\
  let s := fullTimeState in
  let s' := addRow sampleRandom sampleToString36 s in
  gameOver s' = true /\ grid s' = grid s /\
  mode s' = mode s /\ target s' = target s /\ score s' = score s /\
  selectedIds s' = selectedIds s /\ isPaused s' = isPaused s /\
  highScore s' = highScore s /\ randomCalls s' = randomCalls s /\
  (mode s <> Some time -> timeLeft s' = timeLeft s) /\
  (mode s = Some time -> timeLeft s' = TIME_LIMIT).
Proof.
  assert (H : topRowOccupied (grid fullTimeState)).
  { exists (mkBlock "t0" 4 0 3). cbn. auto. }
  split; [exact H|].
  exact (addRow_full_frame sampleRandom sampleToString36 fullTimeState H).
Defined.

(** C3 as stated fails: in time mode with one second left and a tile in
    row 0, [addRow] ends the game and leaves the grid alone, but it changes
    [timeLeft] from 1 to [TIME_LIMIT]. *)
Lemma addRow_full_changes_timeLeft :
  topRowOccupied (grid fullTimeState) /\
  gameOver (addRow sampleRandom sampleToString36 fullTimeState) = true /\
  grid (addRow sampleRandom sampleToString36 fullTimeState) = grid fullTimeState /\
  timeLeft fullTimeState = 1 /\
  timeLeft (addRow sampleRandom sampleToString36 fullTimeState) = 10 /\
  timeLeft (addRow sampleRandom sampleToString36 fullTimeState)
    <> timeLeft fullTimeState.
Proof.
  split; [exists (mkBlock "t0" 4 0 3); cbn; auto|].
  cbn. repeat split; discriminate.
Qed.

(** C4 as stated fails: with the game running, a click that carries an id
    absent from the grid is not a no-op, the id enters the selection. *)
Lemma handleBlockClick_stale_not_noop :
  ~ In "gone"%string (map id (grid quietState)) /\
  selectedIds quietState = [] /\
  selectedIds (handleBlockClick "gone" quietState) = ["gone"%string] /\
  handleBlockClick "gone" quietState <> quietState.
Proof.
  split; [cbn; intros [H|[]]; discriminate|].
  split; [reflexivity|]. split; [reflexivity|]. discriminate.
Qed.


Lemma handleBlockClick_stale_witness :
  ~ In "gone"%string (map id (grid quietState)) /\
  let s := quietState in
  let i := "gone"%string in
  let s' := handleBlockClick i s in
  (gameOver s || isPaused s = true -> s' = s) /\
  (gameOver s || isPaused s = false ->
     (~ In i (selectedIds s) -> s' = setSelectedIds (selectedIds s ++ [i]) s) /\
     (In i (selectedIds s) ->
        s' = setSelectedIds
               (filter (fun j => negb (String.eqb j i)) (selectedIds s)) s) /\
     (In i (selectedIds s') <-> ~ In i (selectedIds s)) /\
     selectedIds s' <> selectedIds s /\
     currentSum s' = currentSum s).
Proof.
  assert (H : ~ In "gone"%string (map id (grid quietState)))
    by (cbn; intros [E|[]]; discriminate).
  split; [exact H|].
  exact (handleBlockClick_stale "gone" quietState H).
Defined.

Lemma validGrid_preserved_witness :
  validGrid (grid quietState) /\
  validGrid (grid (startGame sampleRandom sampleToString36 classic quietState)) /\
  validGrid (grid (handleBlockClick "a" quietState)) /\
  validGrid (grid (checkSum sampleRandom sampleToString36 quietState)) /\
  validGrid (grid (addRow sampleRandom sampleToString36 quietState)) /\
  validGrid (grid (advanceTime sampleRandom sampleToString36 quietState)).
Proof.
  assert (H : validGrid (grid quietState)).
  { split; cbn.
    - repeat constructor. intros [].
    - repeat constructor; cbn; lia. }
  split; [exact H|].
  destruct (validGrid_preserved sampleRandom sampleToString36 classic "a"
              quietState) as [Hstart Hrest].
  split; [exact Hstart | exact (Hrest H)].
Defined.


Lemma clear_round_advance_witness :
  currentSum (clearableState classic) = target (clearableState classic) /\
  let s := clearableState classic in
  let s' := checkSum sampleRandom sampleToString36 s in
  (mode s = Some classic ->
     s' = addRow sampleRandom sampleToString36 (clearSelected sampleRandom s) /\
     timeLeft s' = timeLeft s /\
     (topRowOccupied (remainingBlocks s) ->
        gameOver s' = true /\ grid s' = remainingBlocks s) /\
     ((forall b, In b (remainingBlocks s) -> row b <> 0) ->
        gameOver s' = gameOver s /\
        grid s' = map shiftUp (remainingBlocks s) ++
                  fst (createRow sampleRandom sampleToString36 (GRID_ROWS - 1)
                         (S (randomCalls s))))) /\
  (mode s = Some time ->
     s' = setTimeLeft TIME_LIMIT (clearSelected sampleRandom s) /\
     grid s' = remainingBlocks s /\
     gameOver s' = gameOver s /\
     randomCalls s' = S (randomCalls s) /\
     timeLeft s' = TIME_LIMIT).
Proof.
  split; [reflexivity|].
  exact (clear_round_advance sampleRandom sampleToString36
           (clearableState classic) eq_refl).
Defined.

Lemma stale_ids_inflate_score_witness :
  NoDup (map id (grid (staleSelectionState classic))) /\
  (exists i, In i (selectedIds (staleSelectionState classic)) /\
             ~ In i (map id (grid (staleSelectionState classic)))) /\
  currentSum (staleSelectionState classic) = target (staleSelectionState classic) /\
  let s := staleSelectionState classic in
  let s' := checkSum sampleRandom sampleToString36 s in
  currentSum (setSelectedIds (presentIds s) s) = currentSum s /\
  score s' - score s = 10 * Z.of_nat (List.length (selectedIds s)) /\
  exists olds fresh,
    grid s' = olds ++ fresh /\
    (exists k, (k = 0 \/ k = 1) /\ Forall2 (movedUp k) (remainingBlocks s) olds) /\
    (fresh = [] \/
     fresh = fst (createRow sampleRandom sampleToString36 (GRID_ROWS - 1)
                    (S (randomCalls s)))) /\
    let removed := (List.length (grid s) - List.length olds)%nat in
    removed = List.length (selectedBlocks s) /\
    score s' - score s > 10 * Z.of_nat removed.
Proof.
  assert (Hnd : NoDup (map id (grid (staleSelectionState classic)))).
  { cbn. repeat constructor; cbn; intuition discriminate. }
  assert (Hst : exists i, In i (selectedIds (staleSelectionState classic)) /\
                          ~ In i (map id (grid (staleSelectionState classic)))).
  { exists "gone"%string. cbn. split; [auto|]. intuition discriminate. }
  split; [exact Hnd|]. split; [exact Hst|]. split; [reflexivity|].
  exact (stale_ids_inflate_score sampleRandom sampleToString36
           (staleSelectionState classic) Hnd Hst eq_refl).
Defined.

(** C10 as stated fails: with two tiles that share an id, a selection of
    that id and of an id that is not in the grid reaches the target, the
    clear removes two tiles (the grid goes from three tiles to one) and
    adds 20 to the score, which is not more than ten times two. *)
Lemma stale_ids_shared_id_no_inflation :
  let s := duplicateIdState in
  let s' := checkSum sampleRandom sampleToString36 s in
  (exists i, In i (selectedIds s) /\ ~ In i (map id (grid s))) /\
  currentSum s = target s /\
  grid s' = [mkBlock "c" 9 9 2] /\
  (List.length (grid s) - List.length (grid s'))%nat = 2%nat /\
  score s' - score s = 20 /\
  ~ (score s' - score s
     > 10 * Z.of_nat (List.length (grid s) - List.length (grid s'))).
Proof.
  cbv zeta. split.
  - exists "gone"%string. cbn. split; [auto|]. intuition discriminate.
  - repeat split. cbn. lia.
Qed.

(** *** The persisted high score *)

(** C9 (the code at the failing input): a missing or empty stored value
    leaves the high score at zero, but a stored value that is not a number
    makes the high score NaN, and a stored negative number is taken as it
    is; once the high score is NaN, no score ever replaces it. *)
Theorem loadHighScore_corrupt :
  highScore (loadHighScore None initialState) = Num 0 /\
  highScore (loadHighScore (Some ""%string) initialState) = Num 0 /\
  highScore (loadHighScore (Some "abc"%string) initialState) = NaN /\
  highScore (loadHighScore (Some "-5"%string) initialState) = Num (-5) /\
  forall n : Z,
    updateHighScore (setScore n (loadHighScore (Some "abc"%string) initialState))
    = setScore n (loadHighScore (Some "abc"%string) initialState).
Proof. repeat split. Qed.

(** ** Further properties of the engine *)

(** *** Reading back a stored high score *)

Lemma digitValue_digitChar (d : Z) :
  0 <= d <= 9 -> digitValue (digitChar d) = Some d.
Proof.
  intros H.
  assert (E : d = 0 \/ d = 1 \/ d = 2 \/ d = 3 \/ d = 4 \/
              d = 5 \/ d = 6 \/ d = 7 \/ d = 8 \/ d = 9) by lia.
  repeat (destruct E as [E|E]; [subst d; reflexivity|]). subst d. reflexivity.
Qed.

Lemma digitPrefix_digitChar (d : Z) (rest : string) :
  0 <= d <= 9 ->
  digitPrefix 10 (String (digitChar d) rest) = d :: digitPrefix 10 rest.
Proof.
  intros H. cbn [digitPrefix]. rewrite (digitValue_digitChar d H).
  destruct (Z.ltb_spec d 10); [reflexivity | lia].
Qed.

Lemma digitPrefix_digitsOf (fuel : nat) (n : Z) (acc : string) :
  0 <= n ->
  digitPrefix 10 (digitsOf fuel n acc) = digitList fuel n (digitPrefix 10 acc).
Proof.
  revert n acc. induction fuel as [|fuel IH]; intros n acc Hn; [reflexivity|].
  cbn [digitsOf digitList].
  assert (Hd : 0 <= n mod 10 <= 9) by (pose proof (Z.mod_pos_bound n 10); lia).
  destruct (n <? 10).
  - now apply digitPrefix_digitChar.
  - rewrite IH by (apply Z.div_pos; lia).
    now rewrite digitPrefix_digitChar.
Qed.

Lemma mathInt_digitList (fuel : nat) (n : Z) (acc : list Z) :
  0 <= n < 10 ^ Z.of_nat fuel ->
  fold_left (fun a d => a * 10 + d) (digitList fuel n acc) 0 =
  fold_left (fun a d => a * 10 + d) acc n.
Proof.
  revert n acc. induction fuel as [|fuel IH]; intros n acc Hn.
  - cbn in Hn. cbn [digitList]. f_equal. lia.
  - cbn [digitList]. destruct (Z.ltb_spec n 10) as [Hlt|Hge].
    + cbn [fold_left]. f_equal. rewrite Z.mod_small by lia. lia.
    + rewrite IH.
      * cbn [fold_left]. f_equal. pose proof (Z.div_mod n 10). lia.
      * rewrite Nat2Z.inj_succ, Z.pow_succ_r in Hn by lia. split.
        -- apply Z.div_pos; lia.
        -- apply Z.div_lt_upper_bound; lia.
Qed.

Lemma digitFuel_enough (n : Z) :
  0 <= n -> n < 10 ^ Z.of_nat (digitFuel n).
Proof.
  intros Hn. unfold digitFuel. rewrite Nat2Z.inj_succ.
  pose proof (Z.log2_nonneg n) as Hl. rewrite Z2Nat.id by exact Hl.
  apply Z.lt_le_trans with (2 ^ Z.succ (Z.log2 n)).
  - destruct (Z.eq_dec n 0) as [E|E].
    + subst n. reflexivity.
    + apply Z.log2_spec. lia.
  - apply Z.pow_le_mono_l. lia.
Qed.

Lemma digitsOf_head (fuel : nat) (n : Z) (acc : string) :
  0 <= n < 10 ^ Z.of_nat (S fuel) ->
  exists d rest,
    digitsOf (S fuel) n acc = String (digitChar d) rest /\
    0 <= d <= 9 /\ (0 < n -> 1 <= d) /\ (n = 0 -> rest = acc).
Proof.
  revert n acc. induction fuel as [|fuel IH]; intros n acc Hn.
  - change (10 ^ Z.of_nat 1) with 10 in Hn. cbn [digitsOf].
    destruct (Z.ltb_spec n 10) as [_|Hge]; [|lia].
    exists (n mod 10), acc. rewrite Z.mod_small by lia.
    repeat split; auto; lia.
  - cbn [digitsOf]. destruct (Z.ltb_spec n 10) as [Hlt|Hge].
    + exists (n mod 10), acc. rewrite Z.mod_small by lia.
      repeat split; auto; lia.
    + rewrite Nat2Z.inj_succ, Z.pow_succ_r in Hn by lia.
      assert (Hq : 0 <= n / 10 < 10 ^ Z.of_nat (S fuel)).
      { split; [apply Z.div_pos; lia | apply Z.div_lt_upper_bound; lia]. }
      assert (Hq1 : 0 < n / 10) by (apply Z.div_str_pos; lia).
      destruct (IH (n / 10) (String (digitChar (n mod 10)) acc) Hq)
        as [d [rest [E [Hd [Hpos _]]]]].
      exists d, rest. cbn [digitsOf] in E. rewrite E.
      specialize (Hpos Hq1). repeat split; lia.
Qed.

Lemma parseInt_leading_digit (d : Z) (rest : string) :
  1 <= d <= 9 ->
  parseInt (String (digitChar d) rest) =
  match digitPrefix 10 (String (digitChar d) rest) with
  | [] => NaN
  | digits => Num (1 * mathInt 10 digits)
  end.
Proof.
  intros H.
  assert (E : d = 1 \/ d = 2 \/ d = 3 \/ d = 4 \/ d = 5 \/
              d = 6 \/ d = 7 \/ d = 8 \/ d = 9) by lia.
  repeat (destruct E as [E|E]; [subst d; reflexivity|]). subst d. reflexivity.
Qed.

(** Parsing the digits of [n], followed by text that does not start with a
    decimal digit, gives [n] back. *)
Lemma parseInt_digitsOf (n : Z) (suffix : string) :
  0 <= n ->
  digitPrefix 10 suffix = [] ->
  (n = 0 -> suffix = EmptyString) ->
  parseInt (digitsOf (digitFuel n) n suffix) = Num n.
Proof.
  intros Hn Hsuf H0. destruct (Z.eq_dec n 0) as [E0|Hne].
  - subst n. rewrite (H0 eq_refl). reflexivity.
  - pose proof (digitFuel_enough n Hn) as Hfuel.
    assert (Hdigits : mathInt 10 (digitPrefix 10 (digitsOf (digitFuel n) n suffix))
                      = n).
    { rewrite digitPrefix_digitsOf, Hsuf by exact Hn. unfold mathInt.
      now rewrite mathInt_digitList by (split; [exact Hn | exact Hfuel]). }
    unfold digitFuel in *.
    destruct (digitsOf_head (Z.to_nat (Z.log2 n)) n suffix (conj Hn Hfuel))
      as [d [rest [E [Hd [Hpos _]]]]].
    rewrite E in *. rewrite parseInt_leading_digit by lia.
    destruct (digitPrefix 10 (String (digitChar d) rest)) as [|x xs].
    + cbn in Hdigits. lia.
    + now rewrite Hdigits, Z.mul_1_l.
Qed.

Lemma append_String_assoc (a b c : string) :
  ((a ++ b) ++ c = a ++ (b ++ c))%string.
Proof. induction a as [|x a IH]; cbn; [reflexivity | now rewrite IH]. Qed.

Lemma digitsOf_append (fuel : nat) (n : Z) (acc : string) :
  digitsOf fuel n acc = (digitsOf fuel n EmptyString ++ acc)%string.
Proof.
  revert n acc. induction fuel as [|fuel IH]; intros n acc; [reflexivity|].
  cbn [digitsOf]. destruct (n <? 10); [reflexivity|].
  rewrite IH. rewrite (IH _ (String _ EmptyString)).
  now rewrite append_String_assoc.
Qed.

Lemma numberToString_append (n : Z) (suffix : string) :
  0 <= n ->
  (numberToString n ++ suffix)%string = digitsOf (digitFuel n) n suffix.
Proof.
  intros Hn. unfold numberToString.
  destruct (Z.ltb_spec n 0); [lia|]. symmetry. apply digitsOf_append.
Qed.

Lemma numberToString_nonempty (n : Z) (suffix : string) :
  0 <= n ->
  exists c rest, (numberToString n ++ suffix)%string = String c rest.
Proof.
  intros Hn. rewrite numberToString_append by exact Hn.
  pose proof (digitFuel_enough n Hn) as Hfuel. unfold digitFuel in *.
  destruct (digitsOf_head (Z.to_nat (Z.log2 n)) n suffix (conj Hn Hfuel))
    as [d [rest [E _]]].
  eauto.
Qed.

Lemma append_empty_r (a : string) : (a ++ EmptyString)%string = a.
Proof. induction a as [|x a IH]; cbn; [reflexivity | now rewrite IH]. Qed.

(** X1: a high score that the update effect writes to the storage is read
    back unchanged when the component mounts again: for a score that is not
    negative, is below 2^53 (where a JavaScript number is an exact integer
    written digit by digit) and exceeds the high score, the entry left in
    the storage loads as that score, which is also the high score the state
    now holds. *)
Theorem stored_high_score_round_trip
        (saved : option string) (s s0 : AppState) :
  exceeds (score s) (highScore s) = true ->
  0 <= score s < 2 ^ 53 ->
  highScore (loadHighScore (storeHighScore saved s) s0) = Num (score s) /\
  highScore (updateHighScore s) = Num (score s).
Proof.
  intros Hex [Hpos _]. unfold storeHighScore, updateHighScore. rewrite Hex.
  split; [|reflexivity].
  destruct (numberToString_nonempty (score s) EmptyString Hpos)
    as [c [rest E]].
  rewrite append_empty_r in E. unfold loadHighScore. rewrite E.
  cbn [truthy highScore setHighScore]. rewrite <- E.
  rewrite <- (append_empty_r (numberToString (score s))).
  rewrite numberToString_append by exact Hpos.
  apply parseInt_digitsOf; auto.
Qed.

(** X2: a stored entry that starts with the digits of a positive integer
    below 2^53 loads as that integer whatever follows the digits, as long
    as what follows does not start with a decimal digit. *)
Theorem loadHighScore_numeric_prefix (n : Z) (suffix : string) (s : AppState) :
  0 < n < 2 ^ 53 ->
  digitPrefix 10 suffix = [] ->
  highScore (loadHighScore (Some (numberToString n ++ suffix)%string) s) = Num n.
Proof.
  intros [Hn _] Hsuf.
  destruct (numberToString_nonempty n suffix) as [c [rest E]]; [lia|].
  unfold loadHighScore. rewrite E. cbn [truthy highScore setHighScore].
  rewrite <- E. rewrite numberToString_append by lia.
  apply parseInt_digitsOf; [lia | exact Hsuf | lia].
Qed.

(** *** Runs of the component *)

Section Runs.

Variable random : nat -> Q.
Variable toString36 : Q -> string.

(** [Math.random()] returns a number of the half-open unit interval. *)
Hypothesis random_unit : forall k, (0 <= random k)%Q /\ (random k < 1)%Q.

Lemma checkSum_cases (s : AppState) :
  (currentSum s = target s /\
   checkSum random toString36 s =
   match mode s with
   | Some classic => addRow random toString36 (clearSelected random s)
   | Some time => setTimeLeft TIME_LIMIT (clearSelected random s)
   | None => clearSelected random s
   end) \/
  (currentSum s > target s /\
   checkSum random toString36 s = setSelectedIds [] s) \/
  (currentSum s < target s /\ checkSum random toString36 s = s).
Proof.
  unfold checkSum.
  destruct (Z.eqb_spec (currentSum s) (target s)) as [E|Hne]; [left; auto|].
  right. destruct (Z.gtb_spec (currentSum s) (target s)) as [Hgt|Hle].
  - left. split; [lia | reflexivity].
  - right. split; [lia | reflexivity].
Qed.

Lemma addRow_gameOver (s : AppState) :
  gameOver (addRow random toString36 s) = gameOver s || isFull (grid s).
Proof.
  destruct (isFull (grid s)) eqn:E.
  - rewrite (addRow_full random toString36 s E).
    destruct (mode s) as [[|]|]; cbn; now rewrite orb_true_r.
  - rewrite (addRow_free random toString36 s E). cbv zeta.
    destruct (mode s) as [[|]|]; cbn; now rewrite orb_false_r.
Qed.

Lemma addRow_timeLeft (s : AppState) :
  timeLeft (addRow random toString36 s) =
  match mode s with
  | Some time => TIME_LIMIT
  | _ => timeLeft s
  end.
Proof.
  destruct (mode s) as [[|]|] eqn:Em.
  - apply (addRow_frame random toString36 s). congruence.
  - now apply addRow_timeLeft_time.
  - apply (addRow_frame random toString36 s). congruence.
Qed.

Lemma addRow_selectedIds (s : AppState) :
  selectedIds (addRow random toString36 s) = selectedIds s.
Proof. apply (addRow_frame random toString36 s). Qed.

Lemma addRow_score (s : AppState) :
  score (addRow random toString36 s) = score s.
Proof. apply (addRow_frame random toString36 s). Qed.

Lemma startGame_eq (m : GameMode) (s : AppState) :
  startGame random toString36 m s =
  let created :=
    initialGridFrom random toString36 (Z.to_nat INITIAL_ROWS) 0 (randomCalls s) in
  mkState (Some m) (fst created)
          (arrayGet targetValues (fst (randomBelow random 6 (snd created))))
          0 [] false TIME_LIMIT false (highScore s) (S (snd created)).
Proof.
  unfold startGame, draw. cbn [randomCalls setMode].
  now destruct (initialGridFrom random toString36 (Z.to_nat INITIAL_ROWS) 0
                  (randomCalls s)).
Qed.

(** *** The selection *)

Lemma handleBlockClick_NoDup (i : string) (s : AppState) :
  NoDup (selectedIds s) -> NoDup (selectedIds (handleBlockClick i s)).
Proof.
  intros Hnd. unfold handleBlockClick.
  destruct (gameOver s || isPaused s); [exact Hnd|].
  cbn [selectedIds setSelectedIds].
  destruct (includes (selectedIds s) i) eqn:E.
  - now apply NoDup_filter.
  - apply NoDup_app; [exact Hnd | repeat constructor; intros [] |].
    intros j Hj [Hi|[]]. subst j. apply includes_In in Hj. congruence.
Qed.

Lemma checkSum_selectedIds (s : AppState) :
  selectedIds (checkSum random toString36 s) = [] \/
  checkSum random toString36 s = s.
Proof.
  destruct (checkSum_cases s) as [[_ E]|[[_ E]|[_ E]]]; rewrite E; auto.
  left. destruct (mode s) as [[|]|]; [rewrite addRow_selectedIds| |];
    reflexivity.
Qed.

Lemma advanceTime_selectedIds (s : AppState) :
  selectedIds (advanceTime random toString36 s) = selectedIds s.
Proof.
  unfold advanceTime. destruct (timeLeft s <=? 1); [|reflexivity].
  cbn [selectedIds setTimeLeft]. apply addRow_selectedIds.
Qed.

Lemma step_selection_NoDup (e : Event) (s : AppState) :
  NoDup (selectedIds s) -> NoDup (selectedIds (step random toString36 e s)).
Proof.
  intros Hnd. destruct e; cbn [step].
  - rewrite startGame_eq. constructor.
  - now apply handleBlockClick_NoDup.
  - destruct (checkSum_selectedIds s) as [E|E]; rewrite E;
      [constructor | exact Hnd].
  - destruct (timerRunning s); [|exact Hnd]. now rewrite advanceTime_selectedIds.
  - now destruct (gameOver s).
  - exact Hnd.
  - unfold loadHighScore. destruct saved as [str|]; [|exact Hnd].
    now destruct (truthy (Some str)).
  - unfold updateHighScore. now destruct (exceeds (score s) (highScore s)).
Qed.

(** X3: at every point of every run from the mounted component, no id
    occurs twice in the selection. *)
Theorem reachable_selection_NoDup (s : AppState) :
  reachableFrom random toString36 initialState s -> NoDup (selectedIds s).
Proof.
  induction 1 as [|e s _ IH]; [constructor | now apply step_selection_NoDup].
Qed.

(** *** The score *)

Lemma checkSum_score (s : AppState) :
  exists k, 0 <= k /\ score (checkSum random toString36 s) = score s + 10 * k.
Proof.
  destruct (checkSum_cases s) as [[_ E]|[[_ E]|[_ E]]]; rewrite E.
  - exists (Z.of_nat (List.length (selectedIds s))). split; [lia|].
    assert (Hc : score (clearSelected random s)
                 = score s + Z.of_nat (List.length (selectedIds s)) * 10)
      by reflexivity.
    destruct (mode s) as [[|]|]; [rewrite addRow_score| |];
      try change (score (setTimeLeft TIME_LIMIT (clearSelected random s)))
        with (score (clearSelected random s));
      rewrite Hc; lia.
  - exists 0. cbn. lia.
  - exists 0. lia.
Qed.

Lemma advanceTime_score (s : AppState) :
  score (advanceTime random toString36 s) = score s.
Proof.
  unfold advanceTime. destruct (timeLeft s <=? 1); [|reflexivity].
  cbn [score setTimeLeft]. apply addRow_score.
Qed.

Lemma step_score (e : Event) (s : AppState) :
  inSession e = true ->
  exists k, 0 <= k /\ score (step random toString36 e s) = score s + 10 * k.
Proof.
  intros He. destruct e; try discriminate He; cbn [step].
  - exists 0. unfold handleBlockClick.
    destruct (gameOver s || isPaused s); cbn; lia.
  - apply checkSum_score.
  - exists 0. destruct (timerRunning s); [rewrite advanceTime_score|]; lia.
  - exists 0. destruct (gameOver s); cbn; lia.
  - exists 0. cbn. lia.
  - exists 0. unfold loadHighScore. destruct saved as [str|]; [|lia].
    destruct (truthy (Some str)); cbn; lia.
  - exists 0. unfold updateHighScore.
    destruct (exceeds (score s) (highScore s)); cbn; lia.
Qed.

(** X4: within a session the score never decreases: every event other than
    the start of a new session leaves it as it is or adds a multiple of ten
    to it. *)
Theorem score_never_decreases (e : Event) (s : AppState) :
  inSession e = true ->
  score s <= score (step random toString36 e s) /\
  (score (step random toString36 e s) - score s) mod 10 = 0.
Proof.
  intros He. destruct (step_score e s He) as [k [Hk E]]. rewrite E.
  split; [lia|]. replace (score s + 10 * k - score s) with (k * 10) by lia.
  apply Z.mod_mul. lia.
Qed.

(** X5: at every point of every run from the mounted component the score is
    a multiple of ten that is not negative. *)
Theorem reachable_score (s : AppState) :
  reachableFrom random toString36 initialState s ->
  0 <= score s /\ score s mod 10 = 0.
Proof.
  induction 1 as [|e s _ [IH0 IH10]]; [split; reflexivity|].
  destruct (inSession e) eqn:He.
  - destruct (step_score e s He) as [k [Hk E]]. rewrite E. split; [lia|].
    rewrite (Z.mul_comm 10 k), Z.mod_add by lia. exact IH10.
  - destruct e; try discriminate He. cbn [step]. rewrite startGame_eq.
    split; reflexivity.
Qed.

(** *** The countdown and the end of the game *)

Lemma step_timeLeft (e : Event) (s : AppState) :
  1 <= timeLeft s <= TIME_LIMIT ->
  1 <= timeLeft (step random toString36 e s) <= TIME_LIMIT.
Proof.
  intros Ht. assert (Hlim : 1 <= TIME_LIMIT <= TIME_LIMIT) by (cbv; split; discriminate).
  destruct e; cbn [step].
  - rewrite startGame_eq. exact Hlim.
  - unfold handleBlockClick. now destruct (gameOver s || isPaused s).
  - destruct (checkSum_cases s) as [[_ E]|[[_ E]|[_ E]]]; rewrite E; auto.
    assert (Hc : timeLeft (clearSelected random s) = timeLeft s) by reflexivity.
    destruct (mode s) as [[|]|] eqn:Em.
    + rewrite addRow_timeLeft.
      change (mode (clearSelected random s)) with (mode s).
      now rewrite Em, Hc.
    + exact Hlim.
    + now rewrite Hc.
  - destruct (timerRunning s); [|exact Ht]. unfold advanceTime.
    destruct (Z.leb_spec (timeLeft s) 1); cbn [timeLeft setTimeLeft];
      [exact Hlim | lia].
  - now destruct (gameOver s).
  - exact Ht.
  - unfold loadHighScore. destruct saved as [str|]; [|exact Ht].
    now destruct (truthy (Some str)).
  - unfold updateHighScore. now destruct (exceeds (score s) (highScore s)).
Qed.

(** X6: at every point of every run from the mounted component the
    countdown shows between one second and [TIME_LIMIT] seconds; it never
    shows zero. *)
Theorem reachable_timeLeft (s : AppState) :
  reachableFrom random toString36 initialState s ->
  1 <= timeLeft s <= TIME_LIMIT.
Proof.
  induction 1 as [|e s _ IH]; [cbv; split; discriminate|].
  now apply step_timeLeft.
Qed.

(** X7: the end of the game is final until a restart: once [gameOver]
    holds, every event other than the start of a new session keeps it, a
    click, a tick of the timer and the pause button do nothing at all, and
    the start of a session clears it. *)
Theorem gameOver_is_final (s : AppState) :
  gameOver s = true ->
  (forall e, inSession e = true ->
     gameOver (step random toString36 e s) = true) /\
  (forall i, step random toString36 (BlockClick i) s = s) /\
  step random toString36 Tick s = s /\
  step random toString36 TogglePause s = s /\
  (forall m, gameOver (step random toString36 (StartGame m) s) = false).
Proof.
  intros Hgo.
  assert (Hclick : forall i, handleBlockClick i s = s).
  { intros i. unfold handleBlockClick. now rewrite Hgo. }
  assert (Htick : timerRunning s = false).
  { unfold timerRunning. rewrite Hgo. now destruct (mode s) as [[|]|]. }
  split; [|split; [|split; [|split]]].
  - intros e He. destruct e; try discriminate He; cbn [step].
    + now rewrite Hclick.
    + destruct (checkSum_cases s) as [[_ E]|[[_ E]|[_ E]]]; rewrite E; auto.
      assert (Hc : gameOver (clearSelected random s) = true) by exact Hgo.
      destruct (mode s) as [[|]|]; [|exact Hc|exact Hc].
      now rewrite addRow_gameOver, Hc.
    + now rewrite Htick.
    + now rewrite Hgo.
    + exact Hgo.
    + unfold loadHighScore. destruct saved as [str|]; [|exact Hgo].
      now destruct (truthy (Some str)).
    + unfold updateHighScore. now destruct (exceeds (score s) (highScore s)).
  - exact Hclick.
  - cbn [step]. now rewrite Htick.
  - cbn [step]. now rewrite Hgo.
  - intros m. cbn [step]. now rewrite startGame_eq.
Qed.

(** X8: while the game is paused, a click and a tick of the timer do
    nothing; in a game that is not over the pause button flips the pause
    flag, so that pressing it twice restores the state. *)
Theorem pause_freezes (s : AppState) :
  gameOver s = false ->
  (isPaused s = true ->
     (forall i, step random toString36 (BlockClick i) s = s) /\
     step random toString36 Tick s = s) /\
  isPaused (step random toString36 TogglePause s) = negb (isPaused s) /\
  step random toString36 TogglePause (step random toString36 TogglePause s) = s.
Proof.
  intros Hgo. split; [|split].
  - intros Hp. split.
    + intros i. cbn [step]. unfold handleBlockClick.
      now rewrite Hp, orb_true_r.
    + cbn [step]. unfold timerRunning. rewrite Hp, Hgo.
      now destruct (mode s) as [[|]|].
  - cbn [step]. now rewrite Hgo.
  - cbn [step]. rewrite Hgo. cbn [gameOver setIsPaused]. rewrite Hgo.
    destruct s as [m g t sc sel go tl p h k]. cbn. now rewrite negb_involutive.
Qed.

(** *** The tiles of the grid *)

Lemma initialGridFrom_Forall (P : BlockData -> Prop) :
  (forall r k, Forall P (fst (createRow random toString36 r k))) ->
  forall n i k, Forall P (fst (initialGridFrom random toString36 n i k)).
Proof.
  intros Hrow n. induction n as [|n IH]; intros i k; [constructor|].
  rewrite initialGridFrom_step. apply Forall_app. split; [apply Hrow | apply IH].
Qed.

Lemma addRow_grid_Forall (P : BlockData -> Prop) (s : AppState) :
  (forall b, P b -> P (shiftUp b)) ->
  (forall r k, Forall P (fst (createRow random toString36 r k))) ->
  Forall P (grid s) -> Forall P (grid (addRow random toString36 s)).
Proof.
  intros Hshift Hrow Hg. destruct (isFull (grid s)) eqn:E.
  - rewrite (addRow_full random toString36 s E).
    now destruct (mode s) as [[|]|].
  - rewrite (addRow_free random toString36 s E). cbv zeta.
    assert (Forall P (map shiftUp (grid s) ++
              fst (createRow random toString36 (GRID_ROWS - 1) (randomCalls s)))).
    { apply Forall_app. split; [|apply Hrow].
      apply Forall_map. revert Hg. apply Forall_impl. exact Hshift. }
    now destruct (mode s) as [[|]|].
Qed.

Lemma step_grid_Forall (P : BlockData -> Prop) (e : Event) (s : AppState) :
  (forall b, P b -> P (shiftUp b)) ->
  (forall r k, Forall P (fst (createRow random toString36 r k))) ->
  Forall P (grid s) -> Forall P (grid (step random toString36 e s)).
Proof.
  intros Hshift Hrow Hg. destruct e; cbn [step].
  - rewrite startGame_grid. now apply initialGridFrom_Forall.
  - now rewrite handleBlockClick_grid.
  - destruct (checkSum_cases s) as [[_ E]|[[_ E]|[_ E]]]; rewrite E; auto.
    assert (Hc : Forall P (grid (clearSelected random s))).
    { change (Forall P (remainingBlocks s)). unfold remainingBlocks.
      rewrite Forall_forall in *. intros b Hb. apply filter_In in Hb.
      apply Hg. tauto. }
    destruct (mode s) as [[|]|]; [now apply addRow_grid_Forall | | ]; exact Hc.
  - destruct (timerRunning s); [|exact Hg]. unfold advanceTime.
    destruct (timeLeft s <=? 1); [|exact Hg].
    cbn [grid setTimeLeft]. now apply addRow_grid_Forall.
  - now destruct (gameOver s).
  - exact Hg.
  - unfold loadHighScore. destruct saved as [str|]; [|exact Hg].
    now destruct (truthy (Some str)).
  - unfold updateHighScore. now destruct (exceeds (score s) (highScore s)).
Qed.

Lemma createRow_col_range (r : Z) (k : nat) :
  Forall (fun b => 0 <= col b <= GRID_COLS - 1)
         (fst (createRow random toString36 r k)).
Proof.
  apply (proj1 (Forall_map col (fun c => 0 <= c <= GRID_COLS - 1) _)).
  rewrite createRow_cols. unfold GRID_COLS. repeat constructor; lia.
Qed.

Lemma In_zrange (x start : Z) (n : nat) :
  start <= x < start + Z.of_nat n -> In x (zrange start n).
Proof.
  revert start. induction n as [|n IH]; intros start H; [lia|].
  cbn [zrange]. destruct (Z.eq_dec start x) as [E|Hne]; [now left|].
  right. apply IH. lia.
Qed.

Lemma onBoard_length (g : list BlockData) :
  onBoard g -> Z.of_nat (List.length g) <= GRID_ROWS * GRID_COLS.
Proof.
  intros [[Hnd Hrows] Hcols].
  assert (Hlen : (List.length (map cell g) <= List.length allCells)%nat).
  { apply NoDup_incl_length; [exact Hnd|]. intros c Hc.
    apply in_map_iff in Hc. destruct Hc as [b [E Hb]]. subst c.
    rewrite Forall_forall in Hrows, Hcols.
    pose proof (Hrows b Hb). pose proof (Hcols b Hb).
    unfold cell, allCells. apply in_prod; apply In_zrange;
      unfold GRID_ROWS, GRID_COLS in *; lia. }
  rewrite length_map in Hlen. change (List.length allCells) with 70%nat in Hlen.
  unfold GRID_ROWS, GRID_COLS. lia.
Qed.

(** X9: at every point of every run from the mounted component, the tiles
    of the grid sit on distinct cells of the board (rows 0 to
    [GRID_ROWS - 1], columns 0 to [GRID_COLS - 1]), so the grid never holds
    more than [GRID_ROWS * GRID_COLS] = 70 tiles. *)
Theorem reachable_onBoard (s : AppState) :
  reachableFrom random toString36 initialState s ->
  onBoard (grid s) /\ Z.of_nat (List.length (grid s)) <= GRID_ROWS * GRID_COLS.
Proof.
  intros Hr. assert (Hb : onBoard (grid s)).
  { induction Hr as [|e s _ [IHv IHc]].
    - split; [split|]; constructor.
    - split; [now apply step_validGrid|].
      apply step_grid_Forall; auto using createRow_col_range. }
  split; [exact Hb | now apply onBoard_length].
Qed.

Lemma sum_bounds (l : list BlockData) (a : Z) :
  Forall (fun b => 1 <= value b <= MAX_VALUE) l ->
  a + Z.of_nat (List.length l) <= fold_left (fun sum b => sum + value b) l a
  <= a + MAX_VALUE * Z.of_nat (List.length l).
Proof.
  intros H. revert a. induction H as [|b l Hb _ IH]; intros a.
  - cbn. lia.
  - cbn [fold_left List.length]. specialize (IH (a + value b)).
    unfold MAX_VALUE in *. lia.
Qed.

(** X10: at every point of every run from the mounted component, every
    tile of the grid has a value between 1 and [MAX_VALUE], so the sum of a
    selection lies between the number of selected tiles and [MAX_VALUE]
    times that number. *)
Theorem reachable_values (s : AppState) :
  reachableFrom random toString36 initialState s ->
  Forall (fun b => 1 <= value b <= MAX_VALUE) (grid s) /\
  Z.of_nat (List.length (selectedBlocks s)) <= currentSum s
  <= MAX_VALUE * Z.of_nat (List.length (selectedBlocks s)).
Proof.
  intros Hr.
  assert (Hv : Forall (fun b => 1 <= value b <= MAX_VALUE) (grid s)).
  { induction Hr as [|e s _ IH]; [constructor|].
    apply step_grid_Forall; [intros b Hb; exact Hb | | exact IH].
    apply (createRow_values random toString36 random_unit). }
  split; [exact Hv|]. unfold currentSum.
  apply (sum_bounds (selectedBlocks s) 0). unfold selectedBlocks.
  rewrite Forall_forall in *. intros b Hb. apply filter_In in Hb. apply Hv. tauto.
Qed.

(** *** The start of a session *)

Lemma createRow_cells (r : Z) (k : nat) :
  map cell (fst (createRow random toString36 r k)) =
  map (pair r) [0; 1; 2; 3; 4; 5; 6].
Proof.
  rewrite (cells_of_row r) by apply createRow_rows. now rewrite createRow_cols.
Qed.

Lemma initialGridFrom_calls (n : nat) (i : Z) (k : nat) :
  snd (initialGridFrom random toString36 n i k) = (n * 14 + k)%nat.
Proof.
  revert i k. induction n as [|n IH]; intros i k; [reflexivity|].
  cbn [initialGridFrom]. unfold bind at 1.
  pose proof (createRow_calls random toString36 (GRID_ROWS - 1 - i) k) as Hc.
  destruct (createRow random toString36 (GRID_ROWS - 1 - i) k) as [r k1].
  cbn [snd] in Hc. subst k1. unfold bind, ret.
  specialize (IH (i + 1) (14 + k)%nat).
  destruct (initialGridFrom random toString36 n (i + 1) (14 + k)%nat) as [g k2].
  cbn [snd] in *. lia.
Qed.

(** X11: the start of a session, whatever the state before it: the grid is
    [INITIAL_ROWS * GRID_COLS] = 28 tiles that fill the bottom four rows,
    bottom row first and each row from left to right, with values between
    1 and [MAX_VALUE]; score, selection, pause and game-over flags are
    reset and the countdown is full; the target is one of the list; the
    high score is kept; 57 random numbers have been drawn. *)
Theorem startGame_fresh_session (m : GameMode) (s : AppState) :
  let s' := startGame random toString36 m s in
  mode s' = Some m /\
  map cell (grid s') = initialCells /\
  Z.of_nat (List.length (grid s')) = INITIAL_ROWS * GRID_COLS /\
  Forall (fun b => 1 <= value b <= MAX_VALUE) (grid s') /\
  score s' = 0 /\ selectedIds s' = [] /\
  gameOver s' = false /\ isPaused s' = false /\
  timeLeft s' = TIME_LIMIT /\
  In (target s') targetValues /\
  highScore s' = highScore s /\
  randomCalls s' = (57 + randomCalls s)%nat.
Proof.
  cbv zeta.
  assert (Hcells : map cell (grid (startGame random toString36 m s))
                   = initialCells).
  { rewrite startGame_grid. change (Z.to_nat INITIAL_ROWS) with 4%nat.
    rewrite !initialGridFrom_step, !map_app, !createRow_cells. reflexivity. }
  split; [now rewrite startGame_eq|]. split; [exact Hcells|].
  split; [rewrite <- (length_map cell), Hcells; reflexivity|].
  split; [rewrite startGame_grid; apply initialGridFrom_Forall;
          apply (createRow_values random toString36 random_unit)|].
  split; [now rewrite startGame_eq|]. split; [now rewrite startGame_eq|].
  split; [now rewrite startGame_eq|]. split; [now rewrite startGame_eq|].
  split; [now rewrite startGame_eq|].
  split; [apply (startGame_target random toString36 random_unit)|].
  split; [now rewrite startGame_eq|].
  rewrite startGame_eq. cbv zeta. cbn [randomCalls].
  rewrite initialGridFrom_calls. reflexivity.
Qed.

(** X12: a restart forgets the session before it: the state after
    [startGame] depends on the state before it only through the high score
    and the number of random numbers drawn so far. *)
Theorem startGame_forgets (m : GameMode) (s1 s2 : AppState) :
  highScore s1 = highScore s2 ->
  randomCalls s1 = randomCalls s2 ->
  startGame random toString36 m s1 = startGame random toString36 m s2.
Proof. intros Hh Hk. rewrite !startGame_eq. now rewrite Hh, Hk. Qed.

(** *** Targets and the evaluation of the selection *)

(** X13: in a session, that is from the start of a game on, every target
    is one of the list, hence between 10 and 25, and the evaluation of an
    empty selection changes nothing. *)
Theorem session_targets (m : GameMode) (s0 s : AppState) :
  reachableFrom random toString36 (startGame random toString36 m s0) s ->
  In (target s) targetValues /\
  10 <= target s <= 25 /\
  (selectedIds s = [] -> checkSum random toString36 s = s).
Proof.
  intros Hr.
  assert (Ht : In (target s) targetValues).
  { apply (reachable_target random toString36 random_unit
             (startGame random toString36 m s0)); [|exact Hr].
    apply (startGame_target random toString36 random_unit). }
  split; [exact Ht|]. split; [cbn in Ht; lia|].
  intros Hsel. apply empty_selection_no_clear; [exact Hsel|].
  cbn in Ht. lia.
Qed.

Lemma clearSelected_target (s : AppState) :
  0 < target (clearSelected random s).
Proof.
  apply targetValues_positive. rewrite clearSelected_eq.
  apply (generateTarget_in random random_unit).
Qed.

(** X14: the evaluation of the selection settles after one run: with a
    target above zero, a second run of the effect changes nothing. *)
Theorem checkSum_settles (s : AppState) :
  0 < target s ->
  checkSum random toString36 (checkSum random toString36 s) =
  checkSum random toString36 s.
Proof.
  intros Ht. destruct (checkSum_cases s) as [[_ E]|[[_ E]|[_ E]]].
  - rewrite E. apply empty_selection_no_clear.
    + destruct (mode s) as [[|]|]; [rewrite addRow_selectedIds| |];
        reflexivity.
    + pose proof (clearSelected_target s) as Hc.
      destruct (mode s) as [[|]|]; [|exact Hc|exact Hc].
      now rewrite (addRow_target random toString36).
  - rewrite E. now apply empty_selection_no_clear.
  - now rewrite !E.
Qed.

(** X15: the sum of a selection depends on which ids are selected, not on
    their order or on repetitions. *)
Theorem currentSum_members (l1 l2 : list string) (s : AppState) :
  (forall i, In i l1 <-> In i l2) ->
  currentSum (setSelectedIds l1 s) = currentSum (setSelectedIds l2 s).
Proof.
  intros H. unfold currentSum, selectedBlocks.
  cbn [grid selectedIds setSelectedIds]. f_equal.
  apply filter_ext. intros b. apply eq_true_iff_eq.
  rewrite !includes_In. apply H.
Qed.

(** *** Clicking twice *)

Lemma filter_other_all (i : string) (l : list string) :
  ~ In i l -> filter (fun j => negb (String.eqb j i)) l = l.
Proof.
  induction l as [|x l IH]; intros Hn; [reflexivity|].
  cbn [filter]. destruct (String.eqb_spec x i) as [E|Hne].
  - subst x. elim Hn. now left.
  - cbn [negb]. rewrite IH; [reflexivity|]. intros Hin. apply Hn. now right.
Qed.

Lemma setSelectedIds_back (l : list string) (s : AppState) :
  setSelectedIds (selectedIds s) (setSelectedIds l s) = s.
Proof. now destruct s. Qed.

(** The toggle alone: a second call of [handleBlockClick] takes off the id
    that the first one appended. *)
Lemma toggle_back (i : string) (s : AppState) :
  ~ In i (selectedIds s) ->
  handleBlockClick i (handleBlockClick i s) = s.
Proof.
  intros Hn. unfold handleBlockClick at 2.
  destruct (gameOver s || isPaused s) eqn:Hb.
  - unfold handleBlockClick. now rewrite Hb.
  - assert (Einc : includes (selectedIds s) i = false).
    { destruct (includes (selectedIds s) i) eqn:E; [|reflexivity].
      apply includes_In in E. contradiction. }
    rewrite Einc. unfold handleBlockClick.
    cbn [gameOver isPaused selectedIds setSelectedIds]. rewrite Hb.
    rewrite includes_app. cbn [includes existsb]. rewrite String.eqb_refl.
    rewrite orb_true_r. rewrite filter_app. cbn [filter].
    rewrite String.eqb_refl. cbn [negb]. rewrite app_nil_r.
    rewrite filter_other_all by exact Hn. apply setSelectedIds_back.
Qed.

(** X16: in a settled state (one that the evaluation of the selection
    leaves as it is), clicking twice on a tile that is not selected, with
    the evaluation of the selection running after each click as the
    component runs it, restores the state, provided the first click keeps
    the sum below the target: the first click selects the tile and nothing
    is cleared, the second one removes it again. *)
Theorem click_twice_unselected (i : string) (s : AppState) :
  ~ In i (selectedIds s) ->
  checkSum random toString36 s = s ->
  currentSum (handleBlockClick i s) < target s ->
  let click := fun st =>
    step random toString36 CheckSum (step random toString36 (BlockClick i) st) in
  click s = handleBlockClick i s /\
  click (click s) = s.
Proof.
  intros Hn Hsettled Hlow. cbv zeta. cbn [step].
  assert (Ht : target (handleBlockClick i s) = target s).
  { unfold handleBlockClick. now destruct (gameOver s || isPaused s). }
  assert (E1 : checkSum random toString36 (handleBlockClick i s)
               = handleBlockClick i s).
  { destruct (checkSum_cases (handleBlockClick i s))
      as [[H _]|[[H _]|[_ E]]]; [lia | lia | exact E]. }
  split; [exact E1|].
  now rewrite E1, (toggle_back i s Hn).
Qed.

(** X17: clicking twice on a selected tile, in a running game whose
    selection has no repeated id, keeps the same ids selected but moves the
    tile to the end of the selection: the selection comes back as a
    permutation of itself, not as the same array. *)
Theorem click_twice_selected (i : string) (s : AppState) :
  gameOver s || isPaused s = false ->
  NoDup (selectedIds s) ->
  In i (selectedIds s) ->
  let s2 := handleBlockClick i (handleBlockClick i s) in
  selectedIds s2 =
    filter (fun j => negb (String.eqb j i)) (selectedIds s) ++ [i] /\
  Permutation (selectedIds s) (selectedIds s2) /\
  s2 = setSelectedIds (selectedIds s2) s.
Proof.
  intros Hb Hnd Hin. cbv zeta.
  assert (Einc : includes (selectedIds s) i = true) by now apply includes_In.
  assert (Hout : ~ In i (filter (fun j => negb (String.eqb j i)) (selectedIds s))).
  { rewrite filter_In, negb_true_iff, String.eqb_neq. tauto. }
  assert (E2 : handleBlockClick i (handleBlockClick i s) =
               setSelectedIds
                 (filter (fun j => negb (String.eqb j i)) (selectedIds s) ++ [i])
                 s).
  { unfold handleBlockClick at 2. rewrite Hb, Einc. unfold handleBlockClick.
    cbn [gameOver isPaused selectedIds setSelectedIds]. rewrite Hb.
    destruct (includes (filter (fun j => negb (String.eqb j i)) (selectedIds s)) i)
      eqn:E; [apply includes_In in E; contradiction | reflexivity]. }
  rewrite E2. cbn [selectedIds setSelectedIds]. split; [reflexivity|].
  split; [|reflexivity].
  apply NoDup_Permutation; [exact Hnd | |].
  - apply NoDup_app; [now apply NoDup_filter | repeat constructor; intros [] |].
    intros j Hj [Hi|[]]. subst j. contradiction.
  - intros j. rewrite in_app_iff, filter_In, negb_true_iff, String.eqb_neq.
    cbn [In]. destruct (string_dec j i) as [E|Hne].
    + subst j. tauto.
    + split; [tauto|]. intros [[H _]|[H|[]]]; [exact H | congruence].
Qed.

(** *** Row injections without clears *)

Lemma iter_addRow_gameOver (n : nat) (s : AppState) :
  gameOver s = true ->
  gameOver (Nat.iter n (addRow random toString36) s) = true.
Proof.
  intros H. induction n as [|n IH]; [exact H|].
  rewrite Nat.iter_succ, addRow_gameOver, IH. reflexivity.
Qed.

Lemma addRow_reaches_top (n : nat) :
  forall (s : AppState) (b : BlockData),
    In b (grid s) -> row b = Z.of_nat n ->
    gameOver (Nat.iter (S n) (addRow random toString36) s) = true.
Proof.
  induction n as [|n IH]; intros s b Hb Hrow.
  - cbn [Nat.iter nat_rect]. rewrite addRow_gameOver.
    replace (isFull (grid s)) with true; [apply orb_true_r|].
    symmetry. apply isFull_true_iff. exists b. split; [exact Hb | exact Hrow].
  - rewrite Nat.iter_succ_r. destruct (isFull (grid s)) eqn:E.
    + apply iter_addRow_gameOver. rewrite addRow_gameOver, E.
      apply orb_true_r.
    + apply (IH _ (shiftUp b)).
      * rewrite (addRow_free random toString36 s E). cbv zeta.
        assert (Hin : In (shiftUp b)
                  (map shiftUp (grid s) ++
                   fst (createRow random toString36 (GRID_ROWS - 1)
                          (randomCalls s))))
          by (apply in_or_app; left; now apply in_map).
        now destruct (mode s) as [[|]|].
      * cbn [row shiftUp]. lia.
Qed.

(** X18: row injections alone end the game: a tile in row [n] is in the top
    row after [n] injections, so [n + 1] injections in a row, and any
    number above that, leave [gameOver] set (for a tile on the board,
    [GRID_ROWS] injections are always enough). *)
Theorem addRow_ends_game (n k : nat) (s : AppState) (b : BlockData) :
  In b (grid s) ->
  row b = Z.of_nat n ->
  (S n <= k)%nat ->
  gameOver (Nat.iter k (addRow random toString36) s) = true.
Proof.
  intros Hb Hrow Hk.
  replace k with ((k - S n) + S n)%nat by lia.
  rewrite Nat.iter_add. apply iter_addRow_gameOver.
  now apply (addRow_reaches_top n s b).
Qed.

(** *** The high score *)

(** X19: the effect that records the high score raises a high score that is
    a number to the score when the score is above it and leaves it alone
    otherwise, touches nothing else, and has nothing left to do when it
    runs again. *)
Theorem updateHighScore_max (h : Z) (s : AppState) :
  highScore s = Num h ->
  updateHighScore s = setHighScore (Num (Z.max h (score s))) s /\
  updateHighScore (updateHighScore s) = updateHighScore s.
Proof.
  intros Hh. unfold updateHighScore at 1 3 4. rewrite Hh. cbn [exceeds].
  destruct (Z.gtb_spec (score s) h) as [Hgt|Hle].
  - split.
    + now rewrite Z.max_r by lia.
    + unfold updateHighScore. cbn [score highScore setHighScore exceeds].
      destruct (Z.gtb_spec (score s) (score s)); [lia | reflexivity].
  - split.
    + rewrite Z.max_l by lia. rewrite <- Hh. now destruct s.
    + unfold updateHighScore. rewrite Hh. cbn [exceeds].
      destruct (Z.gtb_spec (score s) h); [lia | reflexivity].
Qed.

(** *** A click and the sum *)

Lemma sumOf_acc (l : list BlockData) (a : Z) :
  fold_left (fun sum b => sum + value b) l a = a + sumOf l.
Proof.
  unfold sumOf. revert a. induction l as [|b l IH]; intros a; cbn [fold_left].
  - lia.
  - rewrite IH, (IH (0 + value b)). lia.
Qed.

Lemma sumOf_cons (b : BlockData) (l : list BlockData) :
  sumOf (b :: l) = value b + sumOf l.
Proof. unfold sumOf at 1. cbn [fold_left]. rewrite sumOf_acc. lia. Qed.

Lemma sumOf_split (p q : BlockData -> bool) (g : list BlockData) :
  sumOf (filter p g) =
  sumOf (filter (fun b => p b && q b) g) +
  sumOf (filter (fun b => p b && negb (q b)) g).
Proof.
  induction g as [|b g IH]; [reflexivity|]. cbn [filter].
  destruct (p b), (q b); cbn [andb negb]; rewrite ?sumOf_cons; lia.
Qed.

Lemma filter_no_match (i : string) (g : list BlockData) :
  ~ In i (map id g) -> filter (fun b' => String.eqb (id b') i) g = [].
Proof.
  induction g as [|x g IH]; intros Hn; [reflexivity|]. cbn [filter].
  destruct (String.eqb_spec (id x) i) as [E|_].
  - elim Hn. left. exact E.
  - apply IH. intros Hin. apply Hn. now right.
Qed.

Lemma sumOf_single (i : string) (g : list BlockData) (b : BlockData) :
  NoDup (map id g) -> In b g -> id b = i ->
  sumOf (filter (fun b' => String.eqb (id b') i) g) = value b.
Proof.
  intros Hnd Hb Hi. induction g as [|x g IH]; [contradiction|].
  cbn [map] in Hnd. apply NoDup_cons_iff in Hnd. destruct Hnd as [Hx Hnd].
  cbn [filter]. destruct Hb as [E|Hb].
  - subst x. rewrite Hi, String.eqb_refl, sumOf_cons.
    rewrite filter_no_match by (rewrite <- Hi; exact Hx). cbn. lia.
  - destruct (String.eqb_spec (id x) i) as [E|_]; [|now apply IH].
    elim Hx. rewrite E, <- Hi. now apply in_map.
Qed.

(** X20: in a running game whose tiles have distinct ids, a click on a tile
    of the grid that is not selected adds the value of the tile to the sum
    of the selection, and a click on a selected tile takes it off the
    sum. *)
Theorem click_changes_sum (b : BlockData) (s : AppState) :
  gameOver s || isPaused s = false ->
  NoDup (map id (grid s)) ->
  In b (grid s) ->
  (~ In (id b) (selectedIds s) ->
     currentSum (handleBlockClick (id b) s) = currentSum s + value b) /\
  (In (id b) (selectedIds s) ->
     currentSum (handleBlockClick (id b) s) = currentSum s - value b).
Proof.
  intros Hrun Hnd Hb.
  pose proof (sumOf_single (id b) (grid s) b Hnd Hb eq_refl) as Hone.
  unfold handleBlockClick. rewrite Hrun. split; intros Hsel.
  - replace (includes (selectedIds s) (id b)) with false
      by (symmetry; apply not_true_is_false; rewrite includes_In; exact Hsel).
    change (sumOf (filter (fun x => includes (selectedIds s ++ [id b]) (id x))
                          (grid s))
            = sumOf (selectedBlocks s) + value b).
    rewrite (sumOf_split _ (fun x => String.eqb (id x) (id b))).
    assert (E1 : filter (fun x => includes (selectedIds s ++ [id b]) (id x)
                                  && String.eqb (id x) (id b)) (grid s)
                 = filter (fun x => String.eqb (id x) (id b)) (grid s)).
    { apply filter_ext. intros x. rewrite includes_app. cbn.
      destruct (String.eqb (id x) (id b));
        [now rewrite orb_false_r, orb_true_r | now rewrite andb_false_r]. }
    assert (E2 : filter (fun x => includes (selectedIds s ++ [id b]) (id x)
                                  && negb (String.eqb (id x) (id b))) (grid s)
                 = selectedBlocks s).
    { apply filter_ext. intros x. rewrite includes_app.
      destruct (String.eqb_spec (id x) (id b)) as [E|Hne].
      - rewrite andb_false_r. symmetry. apply not_true_is_false.
        rewrite includes_In, E. exact Hsel.
      - cbn. replace (String.eqb (id x) (id b)) with false
          by (symmetry; now apply String.eqb_neq).
        now rewrite !orb_false_r, andb_true_r. }
    rewrite E1, E2, Hone. lia.
  - replace (includes (selectedIds s) (id b)) with true
      by (symmetry; now apply includes_In).
    change (sumOf (filter (fun x =>
                     includes (filter (fun j => negb (String.eqb j (id b)))
                                      (selectedIds s)) (id x)) (grid s))
            = sumOf (selectedBlocks s) - value b).
    unfold selectedBlocks.
    rewrite (sumOf_split (fun x => includes (selectedIds s) (id x))
                         (fun x => String.eqb (id x) (id b))).
    assert (E1 : filter (fun x => includes (selectedIds s) (id x)
                                  && String.eqb (id x) (id b)) (grid s)
                 = filter (fun x => String.eqb (id x) (id b)) (grid s)).
    { apply filter_ext. intros x.
      destruct (String.eqb_spec (id x) (id b)) as [E|Hne].
      - rewrite andb_true_r, E. now apply includes_In.
      - now rewrite andb_false_r. }
    assert (E2 : filter (fun x => includes (selectedIds s) (id x)
                                  && negb (String.eqb (id x) (id b))) (grid s)
                 = filter (fun x =>
                     includes (filter (fun j => negb (String.eqb j (id b)))
                                      (selectedIds s)) (id x)) (grid s)).
    { apply filter_ext. intros x.
      destruct (String.eqb_spec (id x) (id b)) as [E|Hne].
      - rewrite andb_false_r. symmetry. apply not_true_is_false.
        rewrite includes_In, filter_In, negb_true_iff, String.eqb_neq. tauto.
      - rewrite andb_true_r. symmetry. now apply includes_filter_other. }
    rewrite E1, E2, Hone. lia.
Qed.

End Runs.

(** *** Instances of the further properties on the sample data *)

Lemma stored_high_score_round_trip_witness :
  exceeds (score scoringState) (highScore scoringState) = true /\
  0 <= score scoringState < 2 ^ 53 /\
  highScore (loadHighScore (storeHighScore None scoringState) initialState)
    = Num (score scoringState) /\
  highScore (updateHighScore scoringState) = Num (score scoringState).
Proof.
  split; [reflexivity|]. split; [cbn; lia|].
  apply (stored_high_score_round_trip None scoringState initialState);
    [reflexivity | cbn; lia].
Defined.

Lemma loadHighScore_numeric_prefix_witness :
  0 < 120 < 2 ^ 53 /\
  digitPrefix 10 "abc" = [] /\
  highScore (loadHighScore (Some (numberToString 120 ++ "abc")%string)
                           initialState) = Num 120.
Proof.
  split; [lia|]. split; [reflexivity|].
  apply (loadHighScore_numeric_prefix 120 "abc" initialState);
    [lia | reflexivity].
Defined.

Lemma sampleSession_reachable :
  reachableFrom sampleRandom sampleToString36 initialState sampleSession.
Proof.
  unfold sampleSession. do 3 apply reach_step. apply reach_here.
Defined.

Lemma reachable_selection_NoDup_witness :
  reachableFrom sampleRandom sampleToString36 initialState sampleSession /\
  NoDup (selectedIds sampleSession).
Proof.
  split; [exact sampleSession_reachable|].
  exact (reachable_selection_NoDup sampleRandom sampleToString36 sampleSession
           sampleSession_reachable).
Defined.

Lemma score_never_decreases_witness :
  inSession CheckSum = true /\
  score (clearableState time)
    <= score (step sampleRandom sampleToString36 CheckSum (clearableState time)) /\
  (score (step sampleRandom sampleToString36 CheckSum (clearableState time))
   - score (clearableState time)) mod 10 = 0.
Proof.
  split; [reflexivity|].
  exact (score_never_decreases sampleRandom sampleToString36 CheckSum
           (clearableState time) eq_refl).
Defined.

Lemma reachable_score_witness :
  reachableFrom sampleRandom sampleToString36 initialState sampleSession /\
  0 <= score sampleSession /\ score sampleSession mod 10 = 0.
Proof.
  split; [exact sampleSession_reachable|].
  exact (reachable_score sampleRandom sampleToString36 sampleSession
           sampleSession_reachable).
Defined.

Lemma reachable_timeLeft_witness :
  reachableFrom sampleRandom sampleToString36 initialState sampleSession /\
  1 <= timeLeft sampleSession <= TIME_LIMIT.
Proof.
  split; [exact sampleSession_reachable|].
  exact (reachable_timeLeft sampleRandom sampleToString36 sampleSession
           sampleSession_reachable).
Defined.

Lemma gameOver_is_final_witness :
  let s := setGameOver true fullTimeState in
  gameOver s = true /\
  (forall e, inSession e = true ->
     gameOver (step sampleRandom sampleToString36 e s) = true) /\
  (forall i, step sampleRandom sampleToString36 (BlockClick i) s = s) /\
  step sampleRandom sampleToString36 Tick s = s /\
  step sampleRandom sampleToString36 TogglePause s = s /\
  (forall m, gameOver (step sampleRandom sampleToString36 (StartGame m) s)
             = false).
Proof.
  cbv zeta. split; [reflexivity|].
  exact (gameOver_is_final sampleRandom sampleToString36
           (setGameOver true fullTimeState) eq_refl).
Defined.

Lemma pause_freezes_witness :
  let s := setIsPaused true quietState in
  gameOver s = false /\
  (isPaused s = true ->
     (forall i, step sampleRandom sampleToString36 (BlockClick i) s = s) /\
     step sampleRandom sampleToString36 Tick s = s) /\
  isPaused (step sampleRandom sampleToString36 TogglePause s)
    = negb (isPaused s) /\
  step sampleRandom sampleToString36 TogglePause
    (step sampleRandom sampleToString36 TogglePause s) = s.
Proof.
  cbv zeta. split; [reflexivity|].
  exact (pause_freezes sampleRandom sampleToString36
           (setIsPaused true quietState) eq_refl).
Defined.

Lemma reachable_onBoard_witness :
  reachableFrom sampleRandom sampleToString36 initialState sampleSession /\
  onBoard (grid sampleSession) /\
  Z.of_nat (List.length (grid sampleSession)) <= GRID_ROWS * GRID_COLS.
Proof.
  split; [exact sampleSession_reachable|].
  exact (reachable_onBoard sampleRandom sampleToString36 sampleSession
           sampleSession_reachable).
Defined.

Lemma reachable_values_witness :
  reachableFrom sampleRandom sampleToString36 initialState sampleSession /\
  Forall (fun b => 1 <= value b <= MAX_VALUE) (grid sampleSession) /\
  Z.of_nat (List.length (selectedBlocks sampleSession))
    <= currentSum sampleSession
    <= MAX_VALUE * Z.of_nat (List.length (selectedBlocks sampleSession)).
Proof.
  split; [exact sampleSession_reachable|].
  exact (reachable_values sampleRandom sampleToString36 sampleRandom_unit
           sampleSession sampleSession_reachable).
Defined.

Lemma startGame_fresh_session_witness :
  let s := scoringState in
  let s' := startGame sampleRandom sampleToString36 time s in
  mode s' = Some time /\
  map cell (grid s') = initialCells /\
  Z.of_nat (List.length (grid s')) = INITIAL_ROWS * GRID_COLS /\
  Forall (fun b => 1 <= value b <= MAX_VALUE) (grid s') /\
  score s' = 0 /\ selectedIds s' = [] /\
  gameOver s' = false /\ isPaused s' = false /\
  timeLeft s' = TIME_LIMIT /\
  In (target s') targetValues /\
  highScore s' = highScore s /\
  randomCalls s' = (57 + randomCalls s)%nat.
Proof.
  exact (startGame_fresh_session sampleRandom sampleToString36
           sampleRandom_unit time scoringState).
Defined.

Lemma startGame_forgets_witness :
  highScore quietState = highScore freshTimeState /\
  randomCalls quietState = randomCalls freshTimeState /\
  startGame sampleRandom sampleToString36 classic quietState
    = startGame sampleRandom sampleToString36 classic freshTimeState.
Proof.
  split; [reflexivity|]. split; [reflexivity|].
  exact (startGame_forgets sampleRandom sampleToString36 classic
           quietState freshTimeState eq_refl eq_refl).
Defined.

Lemma session_targets_witness :
  let s0 := startGame sampleRandom sampleToString36 time initialState in
  let s := step sampleRandom sampleToString36 Tick s0 in
  reachableFrom sampleRandom sampleToString36 s0 s /\
  In (target s) targetValues /\
  10 <= target s <= 25 /\
  (selectedIds s = [] -> checkSum sampleRandom sampleToString36 s = s).
Proof.
  cbv zeta.
  assert (H : reachableFrom sampleRandom sampleToString36
                (startGame sampleRandom sampleToString36 time initialState)
                (step sampleRandom sampleToString36 Tick
                   (startGame sampleRandom sampleToString36 time initialState)))
    by (apply reach_step; apply reach_here).
  split; [exact H|].
  exact (session_targets sampleRandom sampleToString36 sampleRandom_unit time
           initialState _ H).
Defined.

Lemma checkSum_settles_witness :
  0 < target (clearableState classic) /\
  checkSum sampleRandom sampleToString36
    (checkSum sampleRandom sampleToString36 (clearableState classic))
  = checkSum sampleRandom sampleToString36 (clearableState classic).
Proof.
  split; [reflexivity|].
  exact (checkSum_settles sampleRandom sampleToString36 sampleRandom_unit
           (clearableState classic) eq_refl).
Defined.

Lemma currentSum_members_witness :
  (forall i, In i ["a"; "b"]%string <-> In i ["b"; "a"; "a"]%string) /\
  currentSum (setSelectedIds ["a"; "b"]%string (clearableState time))
  = currentSum (setSelectedIds ["b"; "a"; "a"]%string (clearableState time)).
Proof.
  assert (H : forall i, In i ["a"; "b"]%string <-> In i ["b"; "a"; "a"]%string)
    by (intros i; cbn; tauto).
  split; [exact H|].
  exact (currentSum_members _ _ (clearableState time) H).
Defined.

Lemma click_twice_unselected_witness :
  let s := quietState in
  let i := "a"%string in
  ~ In i (selectedIds s) /\
  checkSum sampleRandom sampleToString36 s = s /\
  currentSum (handleBlockClick i s) < target s /\
  let click := fun st =>
    step sampleRandom sampleToString36 CheckSum
      (step sampleRandom sampleToString36 (BlockClick i) st) in
  click s = handleBlockClick i s /\
  click (click s) = s.
Proof.
  cbv zeta.
  assert (H : ~ In "a"%string (selectedIds quietState)) by (cbn; tauto).
  assert (Hlow : currentSum (handleBlockClick "a" quietState) < target quietState)
    by (cbn; lia).
  split; [exact H|]. split; [reflexivity|]. split; [exact Hlow|].
  exact (click_twice_unselected sampleRandom sampleToString36 "a" quietState
           H eq_refl Hlow).
Defined.

Lemma click_twice_selected_witness :
  let s := clearableState classic in
  let i := "a"%string in
  gameOver s || isPaused s = false /\
  NoDup (selectedIds s) /\
  In i (selectedIds s) /\
  let s2 := handleBlockClick i (handleBlockClick i s) in
  selectedIds s2 =
    filter (fun j => negb (String.eqb j i)) (selectedIds s) ++ [i] /\
  Permutation (selectedIds s) (selectedIds s2) /\
  s2 = setSelectedIds (selectedIds s2) s.
Proof.
  cbv zeta.
  assert (Hnd : NoDup (selectedIds (clearableState classic))).
  { cbn. repeat constructor; cbn; intuition discriminate. }
  assert (Hin : In "a"%string (selectedIds (clearableState classic)))
    by (cbn; auto).
  split; [reflexivity|]. split; [exact Hnd|]. split; [exact Hin|].
  exact (click_twice_selected "a" (clearableState classic) eq_refl Hnd Hin).
Defined.

Lemma addRow_ends_game_witness :
  In (mkBlock "a" 4 9 0) (grid quietState) /\
  row (mkBlock "a" 4 9 0) = Z.of_nat 9 /\
  (10 <= 10)%nat /\
  gameOver (Nat.iter 10 (addRow sampleRandom sampleToString36) quietState)
    = true.
Proof.
  assert (Hin : In (mkBlock "a" 4 9 0) (grid quietState)) by (cbn; auto).
  split; [exact Hin|]. split; [reflexivity|]. split; [lia|].
  apply (addRow_ends_game sampleRandom sampleToString36 9 10 quietState
           (mkBlock "a" 4 9 0) Hin eq_refl). lia.
Defined.

Lemma updateHighScore_max_witness :
  highScore scoringState = Num 80 /\
  updateHighScore scoringState
    = setHighScore (Num (Z.max 80 (score scoringState))) scoringState /\
  updateHighScore (updateHighScore scoringState) = updateHighScore scoringState.
Proof.
  split; [reflexivity|].
  exact (updateHighScore_max 80 scoringState eq_refl).
Defined.

Lemma click_changes_sum_witness :
  let s := clearableState time in
  let b := mkBlock "c" 9 9 2 in
  gameOver s || isPaused s = false /\
  NoDup (map id (grid s)) /\
  In b (grid s) /\
  (~ In (id b) (selectedIds s) ->
     currentSum (handleBlockClick (id b) s) = currentSum s + value b) /\
  (In (id b) (selectedIds s) ->
     currentSum (handleBlockClick (id b) s) = currentSum s - value b).
Proof.
  cbv zeta.
  assert (Hnd : NoDup (map id (grid (clearableState time)))).
  { cbn. repeat constructor; cbn; intuition discriminate. }
  assert (Hin : In (mkBlock "c" 9 9 2) (grid (clearableState time)))
    by (cbn; auto).
  split; [reflexivity|]. split; [exact Hnd|]. split; [exact Hin|].
  exact (click_changes_sum (mkBlock "c" 9 9 2) (clearableState time)
           eq_refl Hnd Hin).
Defined.
